(* ===== verification/_CoqProject ===== *)
-Q . S2P
Prelude.v
Interval.v
Diarization.v
Alignment.v
PyFormat.v
Transcript.v
Chunking.v
Summarizer.v
Cleaner.v
FillerIdem.v
Bullets.v
Streamlit.v
Capture.v
Models.v
App.v
Session.v
