(* ===== verification/Prelude.v ===== *)
(** * A verification development of the transcription and summary script

    The repository is one Python script, [src/main.py], a Streamlit app
    that records or uploads audio, transcribes it with Whisper, optionally
    attributes each transcribed segment to a speaker from a pyannote
    diarization, summarises the transcript with a BART pipeline and turns
    the summary into bullet points.  The development models every function
    of the script that computes on data, by translating its Python code
    into executable Rocq definitions, and proves what makes them correct.

    ** Parts of the program and how they interact

    - the speaker-turn boundary extender [extend_diarization_boundaries]
      (main.py 69-75) widens every diarization turn by a margin;
    - the alignment loop inside [transcribe_with_speaker] (main.py 78-99)
      gives each Whisper segment the speaker of the FIRST extended turn
      whose closed interval meets the segment, or ['unknown'], and
      appends one formatted line per segment to the transcript;
    - [transcribe_audio] (main.py 102-121) renders segments without
      speakers;
    - [summarize_text] (main.py 124-140) splits the transcript into
      fixed-size character chunks with its local [split_text], calls the
      summarisation model once per chunk and joins the summaries;
    - [clean_summary_text] (main.py 143-146) removes filler words with a
      case-insensitive, word-bounded regular expression, collapses
      whitespace and strips;
    - [summary_to_bullets] (main.py 149-153) cleans, splits on [". "] and
      keeps the sentences longer than ten characters as ["- "] lines;
    - [record_audio], [preprocess_audio] and [extract_audio_from_video]
      (main.py 19-58) record from the microphone into a WAV file, export
      the normalised audio and extract the audio of a video, each to a
      path the code computes;
    - [diarize_audio] (main.py 61-66) runs a pretrained pyannote pipeline;
    - [main] (main.py 156-205) is the Streamlit script: it shows a title
      and an option selector, obtains a file path from an upload, a
      recording or a video, then shows the output of transcribe_audio and
      of summary_to_bullets(summarize_text(...)); it never calls the
      diarization path.

    ** Files

    - [Prelude]: Python strings as lists of ASCII characters, Python
      exceptions and the result monad with its notation, Python's
      [max], string [join] and [strip]/[isspace], the hint databases and
      the generic lemmas on lists and on rationals the components share.
    - [Interval]: the closed-interval overlap test of main.py line 92.
    - [Diarization]: turns as pyannote's [itertracks] yields them and
      [extend_diarization_boundaries].
    - [Alignment]: the first-match loop of main.py 88-94, an abstract
      first-match specification and the refinement theorem between them,
      and the coverage monotonicity in the margin.
    - [PyFormat]: Python's ["%.2f"] conversion on exact rationals.
    - [Transcript]: [transcribe_with_speaker] and [transcribe_audio] as
      string-accumulating loops.
    - [Cleaner]: the regular-expression filler removal, the whitespace
      collapse and [strip] of [clean_summary_text].
    - [Chunking]: Python's [range] and slicing, [split_text].
    - [Summarizer]: [summarize_text] against an abstract summarisation
      collaborator (a type class), with exceptions propagated.
    - [FillerIdem]: the idempotence of the filler substitution, from the
      shape of the pattern's alternatives.
    - [Bullets]: Python's [str.split] and [summary_to_bullets].
    - [Streamlit]: the effects of a script run: display events ([st.title],
      [st.write], [st.text], widgets, [print], files written) and the
      monad [ui] that appends to the trace and returns or raises, keeping
      what was shown when it raises.
    - [Capture]: [record_audio] against a [Microphone] collaborator, with
      the buffer count of line 30 in IEEE binary64 (Stdlib's [SpecFloat]);
      [preprocess_audio] and [extract_audio_from_video] against the
      collaborator [MediaIO] (pydub and moviepy, each call of which may
      raise, and a video whose [.audio] is [None]); the temporary-file
      suffix of an upload.
    - [Models]: the Whisper, pyannote, transformers and torch
      collaborators as type classes, [diarize_audio], the model loading of
      [transcribe_with_speaker], the whole [transcribe_audio] (device and
      compute type, the language [print] with ["%f"]) and the loading of
      the summarisation pipeline that [summarize_text] runs against.
    - [App]: [main] as the composition of its blocks in [ui], and the
      same blocks run one per step as a phase machine.
    - [Session]: the working directory every session's runs share, as a
      [gmap] from paths to contents updated by the files a trace reads and
      writes (with the audio each thread decoded last), and the
      interleaving of two sessions' events.

    ** What the theorems show

    - Alignment: [find_speaker_refines] is the refinement of the scan by
      the declarative first-match contract; [known_count_monotone] the
      coverage monotonicity in the margin, and a counterexample shows it
      needs the labels to differ from the sentinel ['unknown'].
    - Diarization: the extended turns keep order and labels, never start
      before [0], contain the original turns and stay well formed for a
      non-negative margin; a negative margin breaks that.
    - PyFormat: reading the ["%.2f"] text back gives a value within
      [0.005] of the time (a round trip through a decoder).
    - Transcript: segments render independently and in order, one line
      each; the spec's scenarios, and the [s] suffix of [transcribe_audio].
    - Chunking: the [range]/slice comprehension equals a recursive
      chunker, concatenating the chunks restores the text, the chunk sizes
      and count are exact, and non-positive sizes raise or drop the text.
    - Summarizer: success exactly when every chunk succeeds, with the
      summaries joined in chunk order; the first failure is the result.
    - Cleaner: whitespace normal form and idempotence of that step, the
      substitution only deletes, and the whole cleaner is not idempotent.
    - Bullets: splitting the output at newlines gives back exactly one
      ["- "] line per kept piece, none containing a newline (the cleaner
      turned them into spaces); two examples show where the code departs
      from the spec's bullet rule.
    - Transcript also: segments farther than the margin from every turn
      are attributed to ['unknown'].
    - Diarization also: with a negative margin the extended turns are
      well formed exactly when every turn lasts at least [-2 * margin].
    - Capture: the recording [main] makes holds [n] buffers with
      [n * 1024 <= 16000 * seconds < (n + 1) * 1024] (the binary64 count
      loses no buffer there, and an example shows it does elsewhere); the
      exported path is ["normalized_"] plus the last path component, and a
      decoding or export failure raises before the corresponding write;
      the upload suffix is the text after the last dot.
    - App: the page invariant of every configuration the phase machine
      reaches (header first, text blocks none, the transcription, or the
      transcription and its bullets), by induction over the machine's
      runs, and the machine refines [main] (same final trace and outcome),
      so the invariant speaks of [main]'s pages; when summarisation
      raises, the transcription is already on the page; a video without
      an audio track makes [main] raise [AttributeError] after saving the
      upload.
    - Session: two video sessions whose videos decode, run one after the
      other, each transcribe their own audio, but an interleaving of their
      reads and writes of the fixed files of the working directory makes
      one transcribe the other's.
    - FillerIdem: the filler substitution's output has no filler, so the
      substitution is idempotent; the cleaner's failure to be idempotent
      comes from the whitespace collapse.
    - PyFormat also shows the shape of the ["%.2f"] text.

    ** Modelling choices

    Times are Python floats; they are modelled as exact rationals [Q].
    Comparisons are exact in both; the only float operations of the code,
    [turn.start - margin] and [turn.end + margin], round in Python and are
    exact here.  ["%.2f"] formats the exact binary value of a float with
    round-half-even, which [PyFormat] implements exactly on [Q].  Python
    [str] values are lists of ASCII characters: the regular expressions
    [\b], [\s] and the case folding of [IGNORECASE] are modelled on the
    ASCII range, where Python's Unicode rules coincide with ASCII ones.
    Recursion that is not structural (the regex scanner, [str.split])
    runs on fuel equal to the length of the input, and a lemma shows the
    fuel never runs out.

    The fuel of [sub_fillers_fuel] and [chunks_fuel] is the length of the
    input and that of [py_split_fuel] one more: every step consumes at
    least one character ([filler_match_pos], [find_sep_length]), and
    [sub_fillers_fuel_enough], [chunks_fuel_enough] and
    [py_split_fuel_pieces] show the result is the one of unbounded
    recursion.

    [record_audio]'s [int(rate / chunk * record_seconds)] is computed as
    Python does: the correctly rounded binary64 quotient of two [int]s
    ([SFdiv] on their exact values), the [int] operand converted to a
    float, the rounded product ([SFmul]) and truncation toward zero, with
    [ZeroDivisionError], [OverflowError] and [ValueError] where CPython
    raises them.  The bound theorem is stated for the arguments [main]
    passes (the defaults and the slider's 5 to 60 seconds), where the
    computation is exact; it is checked at each of the 56 slider values by
    evaluation.  [main]'s phase machine has six phases and no loop: a rank
    that every step lowers shows every configuration reaches a final one.

    ** Not modelled

    The audio content itself (pyaudio's samples are the [Microphone]'s
    answers; pydub's [normalize] and moviepy's decoding are the
    [ReadAudio] and [WriteAudio] events, whose outcome is the [MediaIO]
    collaborator's answer) and the internals of the Whisper, pyannote and BART models
    (type classes, given the arguments the code passes them).  Streamlit
    reruns the script on every widget
    change; a run's input is what the widgets return, and runs interact
    only through the files of the working directory ([Session]), whose
    contents are described by where they were decoded from.  The import
    lines and [if __name__ == "__main__": main()] are not modelled.

    ** Plan for further work

    The Python float rounding of [turn.start - margin] in binary64, as
    [Capture] does for line 30, with a theorem bounding its distance to
    the exact model; the failures of [wave.open] and of the file
    writes, which the model does not have; the Unicode cases of [\b] and [IGNORECASE]; the temporary files that
    [NamedTemporaryFile(delete=False)] leaves behind, as a growth bound
    of the [Session] store over a sequence of runs. *)

From Stdlib Require Export QArith Lqa ZArith String Ascii List.
From stdpp Require Export base list strings.

Set Default Goal Selector "!".

(** ** Python strings *)

(** A Python [str] as its sequence of characters. *)
Abbreviation pystr := (list ascii).

(** A Python string literal. *)
Definition str (s : string) : pystr := list_ascii_of_string s.
Arguments str s%_string.

Declare Scope py_scope.
Delimit Scope py_scope with py.

(** ["sep".join(xs)] *)
Fixpoint py_join (sep : pystr) (xs : list pystr) : pystr :=
  match xs with
  | [] => []
  | [x] => x
  | x :: rest => x ++ sep ++ py_join sep rest
  end.

(** [str.isspace] on one character, which is also the class [\s] of
    Python's [re] for [str] patterns: tab, newline, vertical tab, form
    feed, carriage return, the separators 0x1c-0x1f and the space. *)
Definition is_space (c : ascii) : bool :=
  let n := nat_of_ascii c in
  ((9 <=? n) && (n <=? 13)) || ((28 <=? n) && (n <=? 32)).

(** [str.lstrip()] and [str.strip()] with no argument. *)
Fixpoint lstrip (s : pystr) : pystr :=
  match s with
  | [] => []
  | c :: rest => if is_space c then lstrip rest else s
  end.

Definition strip (s : pystr) : pystr := rev (lstrip (rev (lstrip s))).

(** ** Python exceptions and the result monad *)

Inductive py_exc :=
  | ValueError (msg : pystr)
  | IndexError (msg : pystr)
  | KeyError (key : pystr)
  | ZeroDivisionError (msg : pystr)
  | OverflowError (msg : pystr)
  | AttributeError (msg : pystr)
  | CollaboratorError (msg : pystr).

Inductive result (A : Type) :=
  | Ok (a : A)
  | Err (e : py_exc).
Arguments Ok {A} a.
Arguments Err {A} e.

Definition bind {A B} (r : result A) (k : A -> result B) : result B :=
  match r with
  | Ok a => k a
  | Err e => Err e
  end.

Notation "x <- c ;; k" := (bind c (fun x => k))
  (at level 100, c at next level, right associativity) : py_scope.

Definition is_ok {A} (r : result A) : bool :=
  match r with Ok _ => true | Err _ => false end.

(** ** Python's two-argument [max] on times: [max(a, b)] keeps [a] unless
    [b > a]. *)
Definition Qltb (x y : Q) : bool := negb (Qle_bool y x).

Definition py_max (a b : Q) : Q := if Qltb a b then b else a.

(** ** Automation *)

Create HintDb pyrt discriminated.
Create Rewrite HintDb pyrt_rw.

Lemma Qle_bool_true_iff (x y : Q) : Qle_bool x y = true <-> (x <= y)%Q.
Proof. apply Qle_bool_iff. Qed.

Lemma Qltb_true_iff (x y : Q) : Qltb x y = true <-> (x < y)%Q.
Proof.
  unfold Qltb. rewrite negb_true_iff.
  split; intros H.
  - apply Qnot_le_lt. intros Hle. apply Qle_bool_iff in Hle. congruence.
  - destruct (Qle_bool y x) eqn:E; [|reflexivity].
    apply Qle_bool_iff in E. exfalso. apply (Qlt_not_le x y); assumption.
Qed.

Lemma Qle_bool_false_iff (x y : Q) : Qle_bool x y = false <-> (y < x)%Q.
Proof.
  rewrite <- (Qltb_true_iff y x). unfold Qltb. destruct (Qle_bool x y); simpl; split; auto.
Qed.

(** Turns every boolean comparison on [Q] of the context and the goal into
    the proposition it decides. *)
Ltac qbool :=
  repeat match goal with
  | H : Qle_bool _ _ = true |- _ => apply Qle_bool_true_iff in H
  | H : Qle_bool _ _ = false |- _ => apply Qle_bool_false_iff in H
  | H : Qltb _ _ = true |- _ => apply Qltb_true_iff in H
  | H : Qltb _ _ = false |- _ =>
      unfold Qltb in H; apply negb_false_iff in H; apply Qle_bool_true_iff in H
  | |- Qle_bool _ _ = true => apply Qle_bool_true_iff
  | |- Qle_bool _ _ = false => apply Qle_bool_false_iff
  | |- Qltb _ _ = true => apply Qltb_true_iff
  end.

(** [lia] after turning [Z.div] and [Z.modulo] into equations. *)
Ltac zlia := Z.div_mod_to_equations; lia.

(** Case analysis on the comparisons of the goal, then linear arithmetic. *)
Ltac qcases :=
  repeat match goal with
  | |- context [Qle_bool ?x ?y] => destruct (Qle_bool x y) eqn:?
  | |- context [Qltb ?x ?y] => destruct (Qltb x y) eqn:?
  end; qbool.

Lemma py_max_ge_l (a b : Q) : (a <= py_max a b)%Q.
Proof. unfold py_max. qcases; lra. Qed.

Lemma py_max_ge_r (a b : Q) : (b <= py_max a b)%Q.
Proof. unfold py_max. qcases; lra. Qed.

Lemma py_max_le (a b c : Q) : (a <= c -> b <= c -> py_max a b <= c)%Q.
Proof. unfold py_max. qcases; lra. Qed.

Lemma py_max_mono (a b b' : Q) : (b <= b' -> py_max a b <= py_max a b')%Q.
Proof. unfold py_max. qcases; lra. Qed.

#[export] Hint Resolve py_max_ge_l py_max_ge_r py_max_le : pyrt.

(** ** Lists *)

(** Python's [for x in xs: acc += f(x)] is a left fold that appends. *)
Lemma fold_left_app_acc {A B} (f : A -> list B) (xs : list A) (acc : list B) :
  fold_left (fun a x => a ++ f x) xs acc = acc ++ concat (map f xs).
Proof.
  revert acc. induction xs as [|x xs IH]; intros acc; simpl.
  - by rewrite app_nil_r.
  - rewrite IH. by rewrite app_assoc.
Qed.

Lemma py_join_cons (sep x : pystr) (xs : list pystr) :
  xs <> [] -> py_join sep (x :: xs) = x ++ sep ++ py_join sep xs.
Proof. by destruct xs. Qed.

Lemma py_join_app (sep : pystr) (xs ys : list pystr) :
  xs <> [] -> ys <> [] -> py_join sep (xs ++ ys) = py_join sep xs ++ sep ++ py_join sep ys.
Proof.
  intros Hx Hy. induction xs as [|x [|x' xs] IH]; [done| |].
  - simpl. destruct ys; done.
  - change ((x :: x' :: xs) ++ ys) with (x :: ((x' :: xs) ++ ys)).
    cbn [py_join]. rewrite IH by done. by rewrite <- !app_assoc.
Qed.

Lemma lstrip_app_l (s t : pystr) :
  Forall (fun c => is_space c = true) s -> lstrip (s ++ t) = lstrip t.
Proof. induction 1 as [|c s Hc _ IH]; simpl; [done|]. by rewrite Hc. Qed.

(** Counting with a weaker filter gives more. *)
Lemma filter_length_mono {A} (f g : A -> bool) (l : list A) :
  (forall x, In x l -> f x = true -> g x = true) ->
  length (List.filter f l) <= length (List.filter g l).
Proof.
  induction l as [|x l IH]; intros H; simpl; [lia|].
  destruct (f x) eqn:Ef.
  - rewrite (H x (or_introl eq_refl) Ef). simpl.
    apply le_n_S, IH. intros y Hy. apply H. by right.
  - destruct (g x); simpl; [apply le_S|]; apply IH; intros y Hy; apply H; by right.
Qed.

(** Taking more than the list has is taking the whole list. *)
Lemma take_min_length {A} (n : nat) (l : list A) : take (Nat.min n (length l)) l = take n l.
Proof.
  revert n. induction l as [|x l IH]; intros [|n]; simpl; try done. by rewrite IH.
Qed.

(** The results of a function that returns [Ok] on each element are
    determined by the elements. *)
Lemma Forall2_result_functional {A B} (f : A -> result B) (l : list A) (xs ys : list B) :
  Forall2 (fun a b => f a = Ok b) l xs -> Forall2 (fun a b => f a = Ok b) l ys -> xs = ys.
Proof.
  intros Hx. revert ys. induction Hx as [|a x l xs Ha _ IH]; intros ys Hy;
    inversion Hy as [|? y ? ys' Hb Hrest]; subst; [done|].
  rewrite Ha in Hb. injection Hb as <-. by rewrite (IH ys').
Qed.

#[export] Hint Rewrite @fold_left_app_acc @take_min_length : pyrt_rw.
