(* ===== verification/Interval.v ===== *)
(** * The closed-interval overlap test

    The condition of main.py line 92,
    [turn_start <= end_time and start_time <= turn_end]: a speaker turn
    and a transcribed segment meet when their closed intervals share a
    point, so intervals that only touch at an end point overlap. *)

From S2P Require Import Prelude.

Module Interval.

(** [turn_start <= end_time and start_time <= turn_end] *)
Definition overlaps (turn_start turn_end start_time end_time : Q) : bool :=
  Qle_bool turn_start end_time && Qle_bool start_time turn_end.

(** The proposition the test decides. *)
Definition overlap_prop (turn_start turn_end start_time end_time : Q) : Prop :=
  (turn_start <= end_time /\ start_time <= turn_end)%Q.

Lemma overlaps_iff ts te s e :
  overlaps ts te s e = true <-> overlap_prop ts te s e.
Proof.
  unfold overlaps, overlap_prop. rewrite andb_true_iff.
  by rewrite !Qle_bool_true_iff.
Qed.

Lemma overlaps_false_iff ts te s e :
  overlaps ts te s e = false <-> ~ overlap_prop ts te s e.
Proof. rewrite <- overlaps_iff. destruct (overlaps ts te s e); intuition congruence. Qed.

#[export] Instance overlap_prop_dec ts te s e : Decision (overlap_prop ts te s e).
Proof.
  destruct (overlaps ts te s e) eqn:E; [left | right];
    [by apply overlaps_iff | by apply overlaps_false_iff].
Defined.

(** A turn that contains another meets every segment the smaller one
    meets: widening never loses an overlap. *)
Lemma overlaps_widen ts te ts' te' s e :
  (ts' <= ts)%Q -> (te <= te')%Q ->
  overlaps ts te s e = true -> overlaps ts' te' s e = true.
Proof.
  rewrite !overlaps_iff. unfold overlap_prop. intros. lra.
Qed.

(** The test is symmetric in the two intervals. *)
Lemma overlaps_sym ts te s e : overlaps ts te s e = overlaps s e ts te.
Proof. unfold overlaps. apply andb_comm. Qed.

End Interval.

#[export] Hint Resolve Interval.overlaps_widen : pyrt.
