(* ===== verification/Diarization.v ===== *)
(** * Speaker turns and the boundary extender

    A pyannote diarization as [itertracks(yield_label=True)] yields it:
    one [(turn, track, speaker)] triple per speaker turn, in the order the
    annotation yields them.  [extend_diarization_boundaries] (main.py
    69-75) widens each turn by [margin] on both sides, clamping the start
    at [0] with Python's [max], and returns the list of
    [(start, end, speaker)] tuples in the same order. *)

From S2P Require Import Prelude Interval.

Module Diarization.

(** One triple of [itertracks(yield_label=True)]: the turn segment, the
    track name (unused by the code) and the speaker label. *)
Record track := mkTrack {
  turn_start : Q;
  turn_end : Q;
  track_name : pystr;
  speaker : pystr
}.

(** An extended turn, the Python tuple [(start, end, speaker)]. *)
Abbreviation ext_turn := (Q * Q * pystr)%type.

(** The default [margin=0.5] of the signature. *)
Definition default_margin : Q := 1 # 2.

(** The body of the loop, lines 72-74. *)
Definition extend_turn (margin : Q) (t : track) : ext_turn :=
  let start := py_max 0 (turn_start t - margin) in
  let end_ := (turn_end t + margin)%Q in
  (start, end_, speaker t).

(** Lines 69-75: [adjusted_diarization = []], one [append] per turn. *)
Definition extend_diarization_boundaries (diarization : list track) (margin : Q)
    : list ext_turn :=
  fold_left (fun adjusted t => adjusted ++ [extend_turn margin t]) diarization [].

(** A turn is well formed when [0 <= start <= end] (pyannote's segments). *)
Definition wf_turn (t : track) : Prop := (0 <= turn_start t <= turn_end t)%Q.

Definition wf_ext (x : ext_turn) : Prop :=
  let '(s, e, _) := x in (0 <= s <= e)%Q.

(** The loop appends exactly the image of each turn, in order. *)
Lemma extend_diarization_boundaries_map diarization margin :
  extend_diarization_boundaries diarization margin = map (extend_turn margin) diarization.
Proof.
  unfold extend_diarization_boundaries.
  rewrite (fold_left_app_acc (fun t => [extend_turn margin t])).
  simpl. induction diarization as [|t ds IH]; simpl; [done|]. by rewrite IH.
Qed.

Lemma extend_turn_start_nonneg margin t :
  (0 <= fst (fst (extend_turn margin t)))%Q.
Proof. apply py_max_ge_l. Qed.

Lemma extend_turn_wf margin t :
  (0 <= margin)%Q -> wf_turn t -> wf_ext (extend_turn margin t).
Proof.
  unfold wf_turn, wf_ext, extend_turn. intros Hm [H0 H1]. split.
  - apply py_max_ge_l.
  - apply py_max_le; lra.
Qed.

(** The extended turn contains the original one. *)
Lemma extend_turn_contains margin t :
  (0 <= margin)%Q -> (0 <= turn_start t)%Q ->
  let '(s, e, _) := extend_turn margin t in
  (s <= turn_start t)%Q /\ (turn_end t <= e)%Q.
Proof.
  unfold extend_turn. intros Hm H0. split.
  - apply py_max_le; lra.
  - lra.
Qed.

(** A larger margin gives a larger extended turn, whatever the margins'
    signs. *)
Lemma extend_turn_mono m1 m2 t :
  (m1 <= m2)%Q ->
  (fst (fst (extend_turn m2 t)) <= fst (fst (extend_turn m1 t)))%Q /\
  (snd (fst (extend_turn m1 t)) <= snd (fst (extend_turn m2 t)))%Q.
Proof.
  unfold extend_turn. simpl. intros Hm. split.
  - apply py_max_mono. lra.
  - lra.
Qed.


(** C3: With a non-negative margin, extending well-formed turns gives
    well-formed extended turns [0 <= start <= end]. *)
Theorem extend_preserves_wf diarization margin :
  (0 <= margin)%Q -> Forall wf_turn diarization ->
  Forall wf_ext (extend_diarization_boundaries diarization margin).
Proof.
  intros Hm Hwf. rewrite extend_diarization_boundaries_map.
  apply Forall_map. eapply Forall_impl; [exact Hwf|]. intros t. by apply extend_turn_wf.
Qed.

Lemma extend_preserves_wf_witness :
  Forall wf_ext (extend_diarization_boundaries
    [mkTrack 0 5 (str "A") (str "SPEAKER_00"); mkTrack 5 10 (str "B") (str "SPEAKER_01")]
    default_margin).
Proof.
  apply extend_preserves_wf.
  - unfold default_margin. lra.
  - repeat constructor; unfold wf_turn; simpl; lra.
Defined.

(** C4: The extender keeps the turns' order and labels: the i-th extended
    turn is [(max(0, start_i - margin), end_i + margin, speaker_i)], its
    start is never negative, and with a non-negative margin it contains
    the i-th turn. *)
Theorem extend_diarization_boundaries_spec diarization margin :
  Forall2 (fun t x =>
      x = (py_max 0 (turn_start t - margin), (turn_end t + margin)%Q, speaker t) /\
      (0 <= fst (fst x))%Q /\
      ((0 <= margin)%Q -> (0 <= turn_start t)%Q ->
         (fst (fst x) <= turn_start t)%Q /\ (turn_end t <= snd (fst x))%Q))
    diarization (extend_diarization_boundaries diarization margin).
Proof.
  rewrite extend_diarization_boundaries_map.
  induction diarization as [|t ds IH]; simpl; constructor; [|exact IH].
  split; [reflexivity|]. split; [apply extend_turn_start_nonneg|].
  intros Hm H0. pose proof (extend_turn_contains margin t Hm H0) as Hc.
  destruct (extend_turn margin t) as [[s e] l]. exact Hc.
Qed.



(** The spec's scenario: turns [(0,5,A)] and [(5,10,B)] with margin
    [0.5] extend to [(0,5.5,A)] and [(4.5,10.5,B)]. *)
Example extend_scenario :
  extend_diarization_boundaries
    [mkTrack 0 5 (str "A") (str "A"); mkTrack 5 10 (str "B") (str "B")] default_margin
  = [(0%Q, 11 # 2, str "A"); (9 # 2, 21 # 2, str "B")].
Proof. vm_compute. reflexivity. Qed.

End Diarization.
