(* ===== verification/Alignment.v ===== *)
(** * Speaker attribution: the first-match loop of [transcribe_with_speaker]

    main.py 85-94: for each Whisper segment, [speaker = 'unknown'], then a
    scan of the extended turns in the order the extender produced them,
    which stops ([break]) at the first turn whose closed interval meets
    the segment and takes its label.  [find_speaker] is that scan;
    [first_match] is the declarative contract (the label of the earliest
    overlapping turn, or ['unknown'] when none overlaps), and
    [find_speaker_refines] shows the loop implements exactly it.  The
    coverage theorems relate attributions under two margins. *)

From S2P Require Import Prelude Interval Diarization.

Module Alignment.
Import Interval Diarization.

(** The fields of a faster-whisper [Segment] the code reads. *)
Record segment := mkSegment {
  seg_start : Q;
  seg_end : Q;
  seg_text : pystr
}.

Definition unknown : pystr := str "unknown".

(** Lines 91-94: the scan over [diarization_result], with the current
    value of [speaker] threaded through; [break] stops the scan. *)
Fixpoint find_speaker (start_time end_time : Q) (speaker : pystr)
    (diarization_result : list ext_turn) : pystr :=
  match diarization_result with
  | [] => speaker
  | (turn_start, turn_end, spk) :: rest =>
      if overlaps turn_start turn_end start_time end_time then spk
      else find_speaker start_time end_time speaker rest
  end.

(** Lines 86-94 for one segment: [speaker = 'unknown'] then the scan. *)
Definition speaker_of (diarization_result : list ext_turn) (seg : segment) : pystr :=
  find_speaker (seg_start seg) (seg_end seg) unknown diarization_result.

(** The abstract contract: [spk] is the label of an overlapping turn at
    index [i] and no turn before [i] overlaps, or no turn overlaps at all
    and [spk] is ['unknown']. *)
Definition first_match (dr : list ext_turn) (s e : Q) (spk : pystr) : Prop :=
  (exists i ts te,
      dr !! i = Some (ts, te, spk) /\ overlap_prop ts te s e /\
      forall j ts' te' spk', j < i -> dr !! j = Some (ts', te', spk') ->
        ~ overlap_prop ts' te' s e)
  \/ ((forall j ts te spk', dr !! j = Some (ts, te, spk') -> ~ overlap_prop ts te s e)
      /\ spk = unknown).

(** Whether some turn meets the segment. *)
Definition has_match (dr : list ext_turn) (seg : segment) : bool :=
  existsb (fun '(ts, te, _) => overlaps ts te (seg_start seg) (seg_end seg)) dr.

(** The scan ends with the initial [speaker] exactly when no turn meets the
    segment, and otherwise with a label of the list. *)
Lemma find_speaker_no_match s e sp dr :
  existsb (fun '(ts, te, _) => overlaps ts te s e) dr = false ->
  find_speaker s e sp dr = sp.
Proof.
  induction dr as [|[[ts te] l] dr IH]; simpl; [done|].
  rewrite orb_false_iff. intros [-> H]. by apply IH.
Qed.

Lemma find_speaker_match s e sp dr :
  existsb (fun '(ts, te, _) => overlaps ts te s e) dr = true ->
  In (find_speaker s e sp dr) (map snd dr).
Proof.
  induction dr as [|[[ts te] l] dr IH]; simpl; [done|].
  rewrite orb_true_iff. destruct (overlaps ts te s e) eqn:E; [by left|].
  intros [H|H]; [done|]. right. by apply IH.
Qed.

(** The scan returns the initial speaker or one of the labels. *)
Lemma find_speaker_cases s e sp dr :
  find_speaker s e sp dr = sp \/ In (find_speaker s e sp dr) (map snd dr).
Proof.
  destruct (existsb (fun '(ts, te, _) => overlaps ts te s e) dr) eqn:E.
  - right. by apply find_speaker_match.
  - left. by apply find_speaker_no_match.
Qed.

Lemma first_match_cons_hit ts te l dr s e :
  overlap_prop ts te s e -> first_match ((ts, te, l) :: dr) s e l.
Proof.
  intros H. left. exists 0, ts, te. split; [done|]. split; [done|]. lia.
Qed.

Lemma first_match_cons_skip ts te l dr s e spk :
  ~ overlap_prop ts te s e -> first_match dr s e spk ->
  first_match ((ts, te, l) :: dr) s e spk.
Proof.
  intros Hn [(i & ts' & te' & Hi & Ho & Hbefore) | [Hnone ->]].
  - left. exists (S i), ts', te'. split; [done|]. split; [done|].
    intros [|j] ts'' te'' spk'' Hj Hl; simpl in Hl.
    + by simplify_eq.
    + apply (Hbefore j ts'' te'' spk''); [lia|done].
  - right. split; [|done]. intros [|j] ts'' te'' spk'' Hl; simpl in Hl.
    + by simplify_eq.
    + by apply (Hnone j ts'' te'' spk'').
Qed.

Lemma first_match_cons_inv ts te l dr s e spk :
  first_match ((ts, te, l) :: dr) s e spk ->
  (overlap_prop ts te s e /\ spk = l) \/ (~ overlap_prop ts te s e /\ first_match dr s e spk).
Proof.
  intros [(i & ts' & te' & Hi & Ho & Hbefore) | [Hnone ->]].
  - destruct i as [|i]; simpl in Hi.
    + simplify_eq. by left.
    + right. split.
      * apply (Hbefore 0 ts te l); [lia|done].
      * left. exists i, ts', te'. split; [done|]. split; [done|].
        intros j ts'' te'' spk'' Hj Hl. apply (Hbefore (S j) ts'' te'' spk''); [lia|done].
  - right. split.
    + by apply (Hnone 0 ts te l).
    + right. split; [|done]. intros j ts'' te'' spk'' Hl. by apply (Hnone (S j) ts'' te'' spk'').
Qed.

Lemma first_match_nil s e spk : first_match [] s e spk <-> spk = unknown.
Proof.
  split.
  - intros [(i & ? & ? & Hi & _) | [_ ->]]; [done|done].
  - intros ->. right. split; [|done]. intros j ? ? ? Hj. done.
Qed.

(** A larger extended turn list, turn by turn. *)
Definition wider (dr1 dr2 : list ext_turn) : Prop :=
  Forall2 (fun '(s1, e1, l1) '(s2, e2, l2) => (s2 <= s1)%Q /\ (e1 <= e2)%Q /\ l1 = l2) dr1 dr2.

Lemma has_match_wider dr1 dr2 seg :
  wider dr1 dr2 -> has_match dr1 seg = true -> has_match dr2 seg = true.
Proof.
  unfold has_match. induction 1 as [|[[s1 e1] l1] [[s2 e2] l2] dr1 dr2 Hx _ IH]; [done|].
  simpl. rewrite !orb_true_iff. destruct Hx as (Hs & He & _).
  intros [H|H]; [left; eapply overlaps_widen; eauto | right; by apply IH].
Qed.

Lemma extend_wider m1 m2 diarization :
  (m1 <= m2)%Q ->
  wider (extend_diarization_boundaries diarization m1)
        (extend_diarization_boundaries diarization m2).
Proof.
  intros Hm. rewrite !extend_diarization_boundaries_map.
  induction diarization as [|t ds IH]; simpl; constructor; [|exact IH].
  destruct (extend_turn_mono m1 m2 t Hm) as [H1 H2].
  destruct (extend_turn m1 t) as [[s1 e1] l1] eqn:E1,
           (extend_turn m2 t) as [[s2 e2] l2] eqn:E2.
  simpl in *. split; [done|]. split; [done|].
  unfold extend_turn in E1, E2. congruence.
Qed.

(** When no label is the sentinel, the code attributes a known speaker
    exactly when some turn meets the segment. *)
Lemma speaker_of_known_iff dr seg :
  Forall (fun x => snd x <> unknown) dr ->
  speaker_of dr seg <> unknown <-> has_match dr seg = true.
Proof.
  intros Hl. unfold speaker_of, has_match.
  destruct (existsb _ dr) eqn:E; split; intros H; try done.
  - intros Heq. apply (find_speaker_match _ _ unknown) in E.
    rewrite Heq in E. apply in_map_iff in E as ([[ts te] l] & Hl' & Hin).
    simpl in Hl'. subst l. rewrite List.Forall_forall in Hl. by apply (Hl _ Hin).
  - by rewrite find_speaker_no_match in H.
Qed.

Lemma speaker_of_known_wider dr1 dr2 seg :
  wider dr1 dr2 -> Forall (fun x => snd x <> unknown) dr2 ->
  speaker_of dr1 seg <> unknown -> speaker_of dr2 seg <> unknown.
Proof.
  intros Hw Hl2 H1.
  assert (Hl1 : Forall (fun x => snd x <> unknown) dr1).
  { clear H1. induction Hw as [|[[s1 e1] l1] [[s2 e2] l2] ? ? Hx _ IH]; constructor.
    - destruct Hx as (_ & _ & ->). by inversion Hl2.
    - apply IH. by inversion Hl2. }
  apply speaker_of_known_iff; [done|].
  eapply has_match_wider; [exact Hw|]. by apply speaker_of_known_iff.
Qed.

(** The number of segments the code attributes to a known speaker. *)
Definition known_count (dr : list ext_turn) (segs : list segment) : nat :=
  length (List.filter (fun seg => negb (bool_decide (speaker_of dr seg = unknown))) segs).

(** C1: Refinement: the scan of main.py 88-94 returns [spk] exactly when
    [spk] is the label of the earliest extended turn (in list order) whose
    closed interval meets the segment, or ['unknown'] when none does. *)
Theorem find_speaker_refines dr seg spk :
  first_match dr (seg_start seg) (seg_end seg) spk <-> speaker_of dr seg = spk.
Proof.
  unfold speaker_of. induction dr as [|[[ts te] l] dr IH]; simpl.
  - rewrite first_match_nil. split; by intros ->.
  - destruct (overlaps ts te (seg_start seg) (seg_end seg)) eqn:E.
    + apply overlaps_iff in E. split.
      * intros [[_ ->] | [Hn _]]%first_match_cons_inv; [done|contradiction].
      * intros <-. by apply first_match_cons_hit.
    + apply overlaps_false_iff in E. split.
      * intros [[Ho _] | [_ H]]%first_match_cons_inv; [contradiction|by apply IH].
      * intros H. apply first_match_cons_skip; [done|by apply IH].
Qed.

(** C2: Coverage is monotone in the margin: with a margin [m2 >= m1], every
    segment attributed to a known speaker under [m1] is attributed to a
    known speaker (possibly another one) under [m2], so the number of
    attributed segments never decreases, provided no label is the
    sentinel ['unknown']. *)
Theorem known_count_monotone diarization segs m1 m2 :
  (m1 <= m2)%Q -> Forall (fun t => speaker t <> unknown) diarization ->
  known_count (extend_diarization_boundaries diarization m1) segs <=
  known_count (extend_diarization_boundaries diarization m2) segs.
Proof.
  intros Hm Hl. unfold known_count. apply filter_length_mono.
  intros seg _. rewrite !negb_true_iff, !bool_decide_eq_false.
  apply speaker_of_known_wider; [by apply extend_wider|].
  rewrite extend_diarization_boundaries_map. apply Forall_map.
  eapply Forall_impl; [exact Hl|]. done.
Qed.

Lemma known_count_monotone_witness :
  known_count (extend_diarization_boundaries
    [mkTrack 0 1 (str "A") (str "SPEAKER_00"); mkTrack 2 3 (str "B") (str "SPEAKER_01")] 0)
    [mkSegment (6 # 5) (9 # 5) (str " hello")] <=
  known_count (extend_diarization_boundaries
    [mkTrack 0 1 (str "A") (str "SPEAKER_00"); mkTrack 2 3 (str "B") (str "SPEAKER_01")]
    default_margin)
    [mkSegment (6 # 5) (9 # 5) (str " hello")].
Proof.
  apply known_count_monotone.
  - unfold default_margin. lra.
  - repeat constructor; simpl; vm_compute; congruence.
Defined.

(** Without the proviso, coverage can drop: a turn labelled
    ['unknown'] that a larger margin makes overlap first hides a real
    speaker that a smaller margin found. *)
Theorem known_count_not_monotone_with_unknown_label :
  exists diarization segs m1 m2, (m1 <= m2)%Q /\
    known_count (extend_diarization_boundaries diarization m2) segs <
    known_count (extend_diarization_boundaries diarization m1) segs.
Proof.
  exists [mkTrack 0 1 (str "A") unknown; mkTrack 2 3 (str "B") (str "SPEAKER_00")],
         [mkSegment (8 # 5) (19 # 10) (str " hi")], (1 # 2)%Q, 1%Q.
  split; [lra|]. vm_compute. lia.
Qed.

(** The spec's scenario: with turns [(0,5,A)] and [(5,10,B)] extended by
    [0.5], the segment [(4.8, 6.0)] overlaps both and goes to [A], the
    first in list order; listing the turns the other way round gives [B]. *)
Example first_match_scenario :
  speaker_of (extend_diarization_boundaries
      [mkTrack 0 5 (str "A") (str "A"); mkTrack 5 10 (str "B") (str "B")] default_margin)
    (mkSegment (24 # 5) 6 (str "hello")) = str "A" /\
  speaker_of (extend_diarization_boundaries
      [mkTrack 5 10 (str "B") (str "B"); mkTrack 0 5 (str "A") (str "A")] default_margin)
    (mkSegment (24 # 5) 6 (str "hello")) = str "B".
Proof. split; vm_compute; reflexivity. Qed.

End Alignment.
