(* ===== verification/PyFormat.v ===== *)
(** * Python's ["%.2f"] conversion

    main.py 97 ([f"{start_time:.2f}"]) and 119 (["%.2f" % ...]) print
    times with two decimals.  CPython formats the exact value of the float
    correctly rounded with round-half-even; on an exact rational [x] this
    is [round_half_even (|x| * 100)] printed as [int.frac], with a ["-"]
    when [x] is negative (so [-0.001] prints as ["-0.00"]). *)

From S2P Require Import Prelude.
From Stdlib Require Import Qround Qabs DecimalString DecimalN.

Module PyFormat.

(** The nearest integer, ties to the even one. *)
Definition round_half_even (q : Q) : Z :=
  let fl := Qfloor q in
  let r := (q - inject_Z fl)%Q in
  match Qcompare r (1 # 2) with
  | Lt => fl
  | Gt => (fl + 1)%Z
  | Eq => if Z.even fl then fl else (fl + 1)%Z
  end.

(** The decimal digits of a natural number, as [str(n)] prints it. *)
Definition digits (n : Z) : pystr :=
  str (NilZero.string_of_uint (N.to_uint (Z.to_N n))).

(** The two digits after the point, zero-padded. *)
Definition two_digits (n : Z) : pystr :=
  if (n <? 10)%Z then str "0" ++ digits n else digits n.

Definition format_2f (x : Q) : pystr :=
  let n := round_half_even (Qabs x * 100) in
  (if Qltb x 0 then str "-" else []) ++ digits (n / 100) ++ str "." ++ two_digits (n mod 100).

(** [r] printed with [prec] digits, zero-padded on the left. *)
Definition pad_digits (prec : nat) (r : Z) : pystr :=
  let d := digits r in repeat "0"%char (prec - length d) ++ d.

(** ["%.<prec>f"]; ["%f"] is [prec = 6], and [prec = 0] prints no point. *)
Definition format_fixed (prec : nat) (x : Q) : pystr :=
  let scale := (10 ^ Z.of_nat prec)%Z in
  let n := round_half_even (Qabs x * inject_Z scale) in
  (if Qltb x 0 then str "-" else []) ++ digits (n / scale) ++
  match prec with
  | O => []
  | S _ => str "." ++ pad_digits prec (n mod scale)
  end.

(** ** Reading the printed text back

    A decoder for the text [format_2f] prints, used to state what the
    text denotes; it is not part of the program. *)

Definition is_digit (c : ascii) : bool :=
  (48 <=? nat_of_ascii c) && (nat_of_ascii c <=? 57).

Definition parse_nat (s : pystr) : option Z :=
  match NilZero.uint_of_string (string_of_list_ascii s) with
  | Some d => Some (Z.of_N (N.of_uint d))
  | None => None
  end.

(** The text before and after the first occurrence of [c]. *)
Fixpoint break_at (c : ascii) (s : pystr) : option (pystr * pystr) :=
  match s with
  | [] => None
  | x :: rest =>
      if Ascii.eqb x c then Some ([], rest)
      else match break_at c rest with
           | Some (a, b) => Some (x :: a, b)
           | None => None
           end
  end.

(** [[-]int.ff] denotes [+-(int + ff / 100)]. *)
Definition parse_2f (s : pystr) : option Q :=
  let '(neg, body) :=
    match s with
    | c :: r => if Ascii.eqb c "-"%char then (true, r) else (false, s)
    | [] => (false, s)
    end in
  match break_at "."%char body with
  | Some (ip, fp) =>
      if length fp =? 2 then
        match parse_nat ip, parse_nat fp with
        | Some i, Some f =>
            let v := (inject_Z (i * 100 + f) * (1 # 100))%Q in
            Some (if neg then (- v)%Q else v)
        | _, _ => None
        end
      else None
  | None => None
  end.

Lemma round_half_even_bound (q : Q) :
  (inject_Z (round_half_even q) - (1 # 2) <= q <= inject_Z (round_half_even q) + (1 # 2))%Q.
Proof.
  unfold round_half_even.
  pose proof (Qfloor_le q) as H1. pose proof (Qlt_floor q) as H2.
  rewrite inject_Z_plus in H2. change (inject_Z 1) with 1%Q in H2.
  destruct (Qcompare_spec (q - inject_Z (Qfloor q)) (1 # 2)) as [E|E|E].
  - destruct (Z.even (Qfloor q)); [|rewrite inject_Z_plus; change (inject_Z 1) with 1%Q];
      split; lra.
  - split; lra.
  - rewrite inject_Z_plus. change (inject_Z 1) with 1%Q. split; lra.
Qed.

Lemma round_half_even_nonneg (q : Q) : (0 <= q)%Q -> (0 <= round_half_even q)%Z.
Proof.
  intros Hq. pose proof (round_half_even_bound q) as [_ H].
  destruct (Z.le_gt_cases 0 (round_half_even q)) as [|Hlt]; [done|].
  exfalso. assert (Hr : (round_half_even q <= -1)%Z) by lia.
  rewrite Zle_Qle in Hr. change (inject_Z (-1)) with (-1)%Q in Hr. lra.
Qed.

Lemma string_of_uint_digits (d : Decimal.uint) :
  Forall (fun c => is_digit c = true) (str (NilEmpty.string_of_uint d)).
Proof. induction d; simpl; constructor; done. Qed.

Lemma digits_all_digits (n : Z) : Forall (fun c => is_digit c = true) (digits n).
Proof.
  unfold digits, NilZero.string_of_uint.
  destruct (N.to_uint (Z.to_N n)); try apply string_of_uint_digits. repeat constructor.
Qed.

Lemma parse_nat_digits (n : Z) : (0 <= n)%Z -> parse_nat (digits n) = Some n.
Proof.
  intros Hn. unfold parse_nat, digits, str. rewrite string_of_list_ascii_of_string.
  assert (Hnn : N.to_uint (Z.to_N n) <> Decimal.Nil).
  { destruct (Z.to_N n); [discriminate|apply DecimalPos.Unsigned.to_uint_nonnil]. }
  rewrite (NilZero.usu _ Hnn), DecimalN.Unsigned.of_to. f_equal. lia.
Qed.

(** The hundredths, checked on each of the hundred values. *)
Lemma two_digits_ok (r : Z) :
  (0 <= r < 100)%Z ->
  parse_nat (two_digits r) = Some r /\ length (two_digits r) = 2%nat /\
  Forall (fun c => is_digit c = true) (two_digits r).
Proof.
  intros Hr.
  assert (Hall : Forall (fun k : nat => let r := Z.of_nat k in
                   parse_nat (two_digits r) = Some r /\ length (two_digits r) = 2%nat /\
                   forallb is_digit (two_digits r) = true) (seq 0 100%nat)).
  { vm_compute. repeat constructor. }
  rewrite List.Forall_forall in Hall.
  specialize (Hall (Z.to_nat r) ltac:(apply in_seq; lia)).
  simpl in Hall. rewrite Z2Nat.id in Hall by lia.
  destruct Hall as (H1 & H2 & H3). split; [done|]. split; [done|].
  apply List.Forall_forall. intros c Hc. by apply forallb_forall with (x := c) in H3.
Qed.

Lemma break_at_digits (a b : pystr) :
  Forall (fun c => is_digit c = true) a -> break_at "."%char (a ++ "."%char :: b) = Some (a, b).
Proof.
  induction 1 as [|c a Hc _ IH]; simpl; [done|].
  rewrite IH. destruct (Ascii.eqb c ".") eqn:E; [|done].
  apply Ascii.eqb_eq in E. subst. discriminate.
Qed.

Lemma parse_2f_body (a b : pystr) (i f : Z) :
  Forall (fun c => is_digit c = true) a -> length b = 2%nat ->
  parse_nat a = Some i -> parse_nat b = Some f ->
  parse_2f (a ++ "."%char :: b) = Some (inject_Z (i * 100 + f) * (1 # 100))%Q /\
  parse_2f ("-"%char :: a ++ "."%char :: b) = Some (- (inject_Z (i * 100 + f) * (1 # 100)))%Q.
Proof.
  intros Ha Hb Hi Hf. unfold parse_2f. split.
  - destruct a as [|c a'] eqn:Ea.
    + subst a. discriminate Hi.
    + inversion Ha as [|? ? Hc _]; subst.
      assert (Hcm : Ascii.eqb c "-" = false)
        by (apply Ascii.eqb_neq; intros ->; discriminate Hc).
      pose proof (break_at_digits _ b Ha) as Hbr. cbn [app] in Hbr |- *.
      rewrite Hcm. cbv beta iota. rewrite Hbr. by rewrite Hb, Hi, Hf.
  - cbn [Ascii.eqb Bool.eqb]. rewrite break_at_digits by done. by rewrite Hb, Hi, Hf.
Qed.

Lemma digits_nonempty (n : Z) : digits n <> [].
Proof. unfold digits, NilZero.string_of_uint. by destruct (N.to_uint (Z.to_N n)). Qed.

(** C22: The shape of ["%.2f"]: a ["-"] exactly for negative values, a
    non-empty run of decimal digits, a point and exactly two digits. *)
Theorem format_2f_shape (x : Q) :
  exists sign ip fp, format_2f x = sign ++ ip ++ ("."%char :: fp) /\
    ((sign = str "-" /\ x < 0)%Q \/ (sign = [] /\ 0 <= x)%Q) /\
    ip <> [] /\ Forall (fun c => is_digit c = true) ip /\
    length fp = 2%nat /\ Forall (fun c => is_digit c = true) fp.
Proof.
  set (n := round_half_even (Qabs x * 100)).
  assert (Hn : (0 <= n)%Z).
  { apply round_half_even_nonneg. pose proof (Qabs_nonneg x). lra. }
  destruct (two_digits_ok (n mod 100)) as (_ & Hl & Hd); [apply Z.mod_pos_bound; lia|].
  exists (if Qltb x 0 then str "-" else []), (digits (n / 100)), (two_digits (n mod 100)).
  split; [reflexivity|]. split.
  - destruct (Qltb x 0) eqn:Hx; qbool; [left|right]; split; done || lra.
  - split; [apply digits_nonempty|]. split; [apply digits_all_digits|]. done.
Qed.

(** ["%f" % 0.98] *)
Example format_fixed_six : format_fixed 6 (98 # 100) = str "0.980000".
Proof. vm_compute. reflexivity. Qed.

(** C7: Round trip of ["%.2f"]: the text [format_2f x] reads back as
    the decimal [+-(n / 100)] where [n] is [|x| * 100] rounded half to
    even, so the printed time differs from [x] by at most [0.005]. *)
Theorem format_2f_roundtrip (x : Q) :
  exists v, parse_2f (format_2f x) = Some v /\
    (Qabs v == inject_Z (round_half_even (Qabs x * 100)) * (1 # 100))%Q /\
    (x - (1 # 200) <= v <= x + (1 # 200))%Q.
Proof.
  unfold format_2f.
  assert (Hn : (0 <= round_half_even (Qabs x * 100))%Z).
  { apply round_half_even_nonneg. pose proof (Qabs_nonneg x). lra. }
  pose proof (round_half_even_bound (Qabs x * 100)) as Hb.
  set (n := round_half_even (Qabs x * 100)) in *. clearbody n.
  destruct (two_digits_ok (n mod 100)) as (Hf & Hl & _); [apply Z.mod_pos_bound; lia|].
  destruct (parse_2f_body (digits (n / 100)) (two_digits (n mod 100)) (n / 100) (n mod 100))
    as [Hpos Hneg]; [apply digits_all_digits|done|apply parse_nat_digits; zlia|done|].
  replace (n / 100 * 100 + n mod 100)%Z with n in Hpos, Hneg by zlia.
  assert (Hn' : (0 <= inject_Z n * (1 # 100))%Q).
  { rewrite Zle_Qle in Hn. change (inject_Z 0) with 0%Q in Hn. lra. }
  destruct (Qltb x 0) eqn:Hx; qbool.
  - exists (- (inject_Z n * (1 # 100)))%Q. split; [exact Hneg|].
    rewrite (Qabs_neg x) in Hb by lra. rewrite Qabs_opp, Qabs_pos by exact Hn'.
    split; [reflexivity|]. split; lra.
  - exists (inject_Z n * (1 # 100))%Q. split; [exact Hpos|].
    rewrite (Qabs_pos x) in Hb by lra. rewrite Qabs_pos by exact Hn'.
    split; [reflexivity|]. split; lra.
Qed.

End PyFormat.
