(* ===== verification/Transcript.v ===== *)
(** * Rendering the transcript

    [transcribe_with_speaker] (main.py 78-99) and [transcribe_audio]
    (main.py 102-121) run the Whisper model (an external collaborator: its
    output, the list of segments, is the input here) and accumulate one
    line per segment with [transcript += ...].  The first extends the
    diarization with the default margin and attributes each segment with
    [Alignment.speaker_of]; the second prints no speaker and a different
    time format (["[%.2fs -> %.2fs] %s"]).  Its [print] of the detected
    language writes to stdout and changes no state of the model. *)

From S2P Require Import Prelude Interval Diarization Alignment PyFormat.

Module Transcript.
Import Interval Diarization Alignment PyFormat.

Definition newline : ascii := "010"%char.

(** Line 97: [f"[{start_time:.2f} - {end_time:.2f}] Speaker {speaker}: {segment.text}\n"]. *)
Definition speaker_line (start_time end_time : Q) (speaker text : pystr) : pystr :=
  str "[" ++ format_2f start_time ++ str " - " ++ format_2f end_time ++ str "] Speaker "
    ++ speaker ++ str ": " ++ text ++ [newline].

(** Lines 85-97: the body of the loop over the segments. *)
Definition transcribe_segment (diarization_result : list ext_turn) (segment : segment) : pystr :=
  speaker_line (seg_start segment) (seg_end segment)
    (speaker_of diarization_result segment) (seg_text segment).

(** Lines 78-99, with [segments] the output of [model.transcribe]. *)
Definition transcribe_with_speaker (segments : list segment) (diarization : list track) : pystr :=
  let diarization_result := extend_diarization_boundaries diarization default_margin in
  fold_left (fun transcript segment => transcript ++ transcribe_segment diarization_result segment)
    segments [].

(** Line 119: ["[%.2fs -> %.2fs] %s\n" % (segment.start, segment.end, segment.text)]. *)
Definition audio_line (segment : segment) : pystr :=
  str "[" ++ format_2f (seg_start segment) ++ str "s -> " ++ format_2f (seg_end segment)
    ++ str "s] " ++ seg_text segment ++ [newline].

(** Lines 102-121, with [segments] the output of [model.transcribe]. *)
Definition transcribe_audio (segments : list segment) : pystr :=
  fold_left (fun transcript segment => transcript ++ audio_line segment) segments [].

(** The number of line breaks of a text. *)
Definition count_newlines (s : pystr) : nat :=
  length (List.filter (fun c => Ascii.eqb c newline) s).

Lemma transcribe_with_speaker_concat segments diarization :
  transcribe_with_speaker segments diarization =
  concat (map (transcribe_segment (extend_diarization_boundaries diarization default_margin))
              segments).
Proof. unfold transcribe_with_speaker. by rewrite fold_left_app_acc. Qed.

Lemma transcribe_audio_concat segments :
  transcribe_audio segments = concat (map audio_line segments).
Proof. unfold transcribe_audio. by rewrite fold_left_app_acc. Qed.

Lemma count_newlines_app s t : count_newlines (s ++ t) = count_newlines s + count_newlines t.
Proof. unfold count_newlines. by rewrite List.filter_app, length_app. Qed.

Lemma count_newlines_concat ls :
  count_newlines (concat ls) = sum_list_with count_newlines ls.
Proof. induction ls as [|l ls IH]; simpl; [done|]. by rewrite count_newlines_app, IH. Qed.

Lemma count_newlines_none s :
  Forall (fun c => c <> newline) s -> count_newlines s = 0.
Proof.
  unfold count_newlines. induction 1 as [|c s Hc _ IH]; simpl; [done|].
  destruct (Ascii.eqb_spec c newline); [contradiction|exact IH].
Qed.

Lemma format_2f_no_newline x : Forall (fun c => c <> newline) (format_2f x).
Proof.
  unfold format_2f.
  assert (Hd : forall s, Forall (fun c => is_digit c = true) s -> Forall (fun c => c <> newline) s).
  { intros s Hs. eapply Forall_impl; [exact Hs|]. intros c Hc ->. discriminate Hc. }
  repeat apply Forall_app_2.
  - destruct (Qltb x 0); repeat constructor; discriminate.
  - apply Hd, digits_all_digits.
  - repeat constructor; discriminate.
  - unfold two_digits. destruct (_ <? _)%Z.
    + apply Forall_app_2; [repeat constructor; discriminate|apply Hd, digits_all_digits].
    + apply Hd, digits_all_digits.
Qed.

(** Closes [Forall (fun c => c <> newline) s] for the pieces of a line. *)
Ltac no_newline :=
  repeat first
    [ apply format_2f_no_newline
    | assumption
    | apply Forall_app_2
    | progress (unfold str; simpl)
    | apply Forall_cons; split; [discriminate|]
    | apply Forall_nil
    | exact I ].

Lemma transcribe_segment_newlines dr seg :
  Forall (fun c => c <> newline) (seg_text seg) ->
  Forall (fun l => Forall (fun c => c <> newline) l) (map snd dr) ->
  count_newlines (transcribe_segment dr seg) = 1.
Proof.
  intros Ht Hl.
  assert (Hsp : Forall (fun c => c <> newline) (speaker_of dr seg)).
  { unfold speaker_of.
    destruct (find_speaker_cases (seg_start seg) (seg_end seg) unknown dr) as [->|Hin].
    - repeat constructor; discriminate.
    - rewrite List.Forall_forall in Hl. by apply Hl. }
  unfold transcribe_segment, speaker_line.
  rewrite !app_assoc, count_newlines_app, count_newlines_none; [reflexivity|].
  no_newline.
Qed.

(** C6: Segments are rendered independently and in order: the
    transcript of [s1 ++ s2] is the transcript of [s1] followed by that of
    [s2], so attributing segments in parallel against the same turn list
    gives the same text. *)
Theorem transcribe_with_speaker_app s1 s2 diarization :
  transcribe_with_speaker (s1 ++ s2) diarization =
  transcribe_with_speaker s1 diarization ++ transcribe_with_speaker s2 diarization.
Proof. rewrite !transcribe_with_speaker_concat. by rewrite map_app, concat_app. Qed.

(** C5: One line per segment: when no segment text and no speaker label
    contains a line break, the transcript has exactly as many line breaks
    as there are segments. *)
Theorem transcribe_with_speaker_line_count segments diarization :
  Forall (fun seg => Forall (fun c => c <> newline) (seg_text seg)) segments ->
  Forall (fun t => Forall (fun c => c <> newline) (speaker t)) diarization ->
  count_newlines (transcribe_with_speaker segments diarization) = length segments.
Proof.
  intros Hs Hd. rewrite transcribe_with_speaker_concat, count_newlines_concat.
  induction Hs as [|seg segs Hseg _ IH]; simpl; [done|].
  rewrite transcribe_segment_newlines; [by rewrite IH| done |].
  rewrite extend_diarization_boundaries_map, map_map. apply List.Forall_map. exact Hd.
Qed.

Lemma transcribe_with_speaker_line_count_witness :
  count_newlines (transcribe_with_speaker
    [mkSegment 0 1 (str " hi"); mkSegment 1 (5 # 2) (str " there")]
    [mkTrack 0 2 (str "A") (str "SPEAKER_00")]) = 2.
Proof.
  apply transcribe_with_speaker_line_count.
  - repeat constructor; vm_compute; discriminate.
  - repeat constructor; vm_compute; discriminate.
Defined.

(** A turn farther than the margin from a segment does not meet it once
    extended. *)
Lemma extend_turn_far t seg :
  (seg_end seg < turn_start t - default_margin \/ turn_end t + default_margin < seg_start seg)%Q ->
  (let '(ts, te, _) := extend_turn default_margin t in overlaps ts te (seg_start seg) (seg_end seg)) = false.
Proof.
  intros Hfar. unfold extend_turn. apply overlaps_false_iff. unfold overlap_prop.
  pose proof (py_max_ge_r 0 (turn_start t - default_margin)). lra.
Qed.

(** C18: A segment farther than the margin [0.5] from every speaker turn
    is attributed to nobody: when that holds of every segment, the
    transcript is the segments' lines with the speaker ['unknown'], in
    order. *)
Theorem transcribe_with_speaker_far segments diarization :
  Forall (fun seg => Forall (fun t =>
      seg_end seg < turn_start t - default_margin \/ turn_end t + default_margin < seg_start seg)%Q
    diarization) segments ->
  transcribe_with_speaker segments diarization =
  concat (map (fun seg => speaker_line (seg_start seg) (seg_end seg) unknown (seg_text seg)) segments).
Proof.
  intros Hfar. rewrite transcribe_with_speaker_concat. f_equal.
  apply map_ext_in. intros seg Hin. rewrite Forall_forall in Hfar.
  specialize (Hfar seg (proj2 (list_elem_of_In _ _) Hin)).
  unfold transcribe_segment, speaker_of. f_equal. apply find_speaker_no_match.
  rewrite extend_diarization_boundaries_map.
  induction Hfar as [|t ds Ht _ IH]; [reflexivity|]. cbn [map existsb].
  by rewrite (extend_turn_far t seg Ht).
Qed.

Lemma transcribe_with_speaker_far_witness :
  transcribe_with_speaker [mkSegment 10 11 (str "hi")] [mkTrack 0 5 (str "A") (str "SPEAKER_00")] =
  concat (map (fun seg => speaker_line (seg_start seg) (seg_end seg) unknown (seg_text seg))
    [mkSegment 10 11 (str "hi")]).
Proof.
  apply transcribe_with_speaker_far.
  constructor; [|constructor]. constructor; [|constructor].
  right. unfold default_margin. simpl. lra.
Defined.

(** With no speaker turns, the segment [(0, 1, "hi")] is rendered as
    ["[0.00 - 1.00] Speaker unknown: hi\n"]. *)
Example transcribe_with_speaker_no_turns :
  transcribe_with_speaker [mkSegment 0 1 (str "hi")] [] =
  str "[0.00 - 1.00] Speaker unknown: hi" ++ [newline].
Proof. vm_compute. reflexivity. Qed.

(** Without diarization the times carry an [s] suffix, which the
    spec's [[{start:.2f} -> {end:.2f}] {text}] format does not have. *)
Example transcribe_audio_format :
  transcribe_audio [mkSegment 0 1 (str "hi")] = str "[0.00s -> 1.00s] hi" ++ [newline].
Proof. vm_compute. reflexivity. Qed.

End Transcript.
