(* ===== verification/Chunking.v ===== *)
(** * Fixed-size chunking: [split_text] of [summarize_text]

    main.py 129-130:
    [return [text[i:i + chunk_size] for i in range(0, len(text), chunk_size)]].
    The model writes out Python's [range] (its length as CPython computes
    it, and the [ValueError] of a zero step) and Python's slicing (negative
    indices count from the end, out-of-range indices are clamped), and
    [split_text] composes them the way the comprehension does.  [chunks]
    is the reference: the text cut into consecutive pieces of [k]
    characters; [split_text_chunks] shows the comprehension computes it
    for every positive size. *)

From S2P Require Import Prelude.

Module Chunking.

(** The number of elements of [range(start, stop, step)], as CPython's
    [compute_range_length] gives it. *)
Definition range_len (start stop step : Z) : Z :=
  if (0 <? step)%Z then
    (if (start <? stop)%Z then (stop - start - 1) / step + 1 else 0)%Z
  else
    (if (stop <? start)%Z then (start - stop - 1) / (- step) + 1 else 0)%Z.

(** [range(start, stop, step)], materialised. *)
Definition py_range (start stop step : Z) : result (list Z) :=
  if (step =? 0)%Z then Err (ValueError (str "range() arg 3 must not be zero"))
  else Ok (map (fun j => start + Z.of_nat j * step)%Z
               (seq 0 (Z.to_nat (range_len start stop step)))).

(** A slice bound as [PySlice_AdjustIndices] adjusts it for step [1]. *)
Definition adjust_index (len i : Z) : Z :=
  if (i <? 0)%Z then Z.max 0 (i + len) else Z.min i len.

(** [s[i:j]] *)
Definition py_slice {A} (s : list A) (i j : Z) : list A :=
  let n := Z.of_nat (length s) in
  let i' := adjust_index n i in
  let j' := adjust_index n j in
  take (Z.to_nat (j' - i')) (drop (Z.to_nat i') s).

(** The default [chunk_size=1000]. *)
Definition default_chunk_size : Z := 1000.

(** Lines 129-130. *)
Definition split_text (text : pystr) (chunk_size : Z) : result (list pystr) :=
  bind (py_range 0 (Z.of_nat (length text)) chunk_size)
    (fun idx => Ok (map (fun i => py_slice text i (i + chunk_size)%Z) idx)).

(** ** The reference chunker *)

Section Chunks.
Context {A : Type}.

Fixpoint chunks_fuel (fuel k : nat) (s : list A) : list (list A) :=
  match fuel with
  | O => []
  | S f =>
      match s with
      | [] => []
      | _ :: _ => take k s :: chunks_fuel f k (drop k s)
      end
  end.

(** Consecutive pieces of [k] elements, the last one possibly shorter. *)
Definition chunks (k : nat) (s : list A) : list (list A) := chunks_fuel (length s) k s.

Context (k : nat) (Hk : 0 < k).

(** Any fuel at least the length of the list gives the same pieces: the
    fuel of [chunks] never runs out. *)
Lemma chunks_fuel_enough fuel s :
  length s <= fuel -> chunks_fuel fuel k s = chunks k s.
Proof.
  unfold chunks. revert fuel. induction s as [s IH] using (induction_ltof1 _ (@length A)).
  unfold ltof in IH. intros [|f] Hf; destruct s as [|x s']; simpl in *; try done; [lia|].
  f_equal. assert (Hd : length (drop k (x :: s')) <= length s' /\ length (drop k (x :: s')) < S (length s'))
    by (rewrite length_drop; simpl; lia).
  rewrite (IH _ (proj2 Hd) f), (IH _ (proj2 Hd) (length s')); [done|apply Hd|lia].
Qed.

Lemma chunks_nil : chunks k [] = [].
Proof. done. Qed.

Lemma chunks_cons s : s <> [] -> chunks k s = take k s :: chunks k (drop k s).
Proof.
  intros Hs. unfold chunks at 1. destruct s as [|x s']; [done|]. simpl.
  f_equal. apply chunks_fuel_enough. rewrite length_drop. simpl. lia.
Qed.

Lemma chunks_ind (P : list A -> list (list A) -> Prop) :
  P [] [] ->
  (forall s, s <> [] -> P (drop k s) (chunks k (drop k s)) ->
     P s (take k s :: chunks k (drop k s))) ->
  forall s, P s (chunks k s).
Proof.
  intros Hnil Hcons s. induction s as [s IH] using (induction_ltof1 _ (@length A)).
  destruct s as [|x s']; [done|]. rewrite chunks_cons by done.
  apply Hcons; [done|]. apply IH. unfold ltof. rewrite length_drop. simpl. lia.
Qed.

Lemma chunks_concat s : concat (chunks k s) = s.
Proof.
  apply (chunks_ind (fun s cs => concat cs = s)); [done|].
  intros s' _ IH. simpl. rewrite IH. apply take_drop.
Qed.

(** The pieces are the slices at the multiples of [k]. *)
Lemma chunks_as_map s :
  chunks k s = map (fun j => take k (drop (j * k) s)) (seq 0 (length (chunks k s))).
Proof.
  apply (chunks_ind (fun s cs => cs = map (fun j => take k (drop (j * k) s)) (seq 0 (length cs))));
    [done|].
  intros s' _ IH. simpl length. rewrite <- cons_seq. simpl. f_equal.
  rewrite IH at 1. rewrite <- seq_shift, map_map. apply map_ext. intros j.
  rewrite drop_drop. f_equal; lia.
Qed.

(** [c] pieces cover [n > 0] elements exactly when [k (c - 1) < n <= k c]. *)
Lemma chunks_length_bounds s :
  s <> [] -> (length (chunks k s) - 1) * k < length s <= length (chunks k s) * k.
Proof.
  revert s. apply (chunks_ind (fun s cs => s <> [] -> (length cs - 1) * k < length s <= length cs * k)).
  - done.
  - intros s Hs IH _. simpl length.
    assert (Hl : length (drop k s) = length s - k) by apply length_drop.
    assert (Hpos : 0 < length s) by (destruct s; [done|simpl; lia]).
    destruct (decide (drop k s = [])) as [E|E].
    + rewrite E, chunks_nil. rewrite E in Hl. simpl in *. lia.
    + specialize (IH E). assert (0 < length (drop k s)) by (destruct (drop k s); [done|simpl; lia]).
      nia.
Qed.

Lemma chunks_length_nil : length (chunks k []) = 0.
Proof. done. Qed.

End Chunks.

(** A slice [s[i:i+k]] with [0 <= i] and [0 <= k] drops [i] elements and
    takes [k]. *)
Lemma py_slice_take_drop {A} (s : list A) (i k' : Z) :
  (0 <= i)%Z -> (0 <= k')%Z ->
  py_slice s i (i + k') = take (Z.to_nat k') (drop (Z.to_nat i) s).
Proof.
  intros Hi Hk'. unfold py_slice, adjust_index.
  rewrite (proj2 (Z.ltb_ge i 0)), (proj2 (Z.ltb_ge (i + k') 0)) by lia.
  destruct (Z.le_gt_cases (Z.of_nat (length s)) i) as [Hge|Hlt].
  - rewrite !Z.min_r by lia. rewrite Z.sub_diag.
    rewrite (drop_ge s (Z.to_nat i)) by lia. by rewrite take_nil.
  - rewrite (Z.min_l i) by lia.
    rewrite <- (take_min_length (Z.to_nat k')), <- (take_min_length (Z.to_nat (_ - _))).
    f_equal. rewrite length_drop. lia.
Qed.


(** The number of indices [range(0, n, k)] yields is the number of
    pieces. *)
Lemma range_len_chunks (text : pystr) (k : Z) :
  (0 < k)%Z -> range_len 0 (Z.of_nat (length text)) k = Z.of_nat (length (chunks (Z.to_nat k) text)).
Proof.
  intros Hk. unfold range_len. rewrite (proj2 (Z.ltb_lt 0 k)) by done.
  destruct (decide (text = [])) as [->|Hne]; [done|].
  pose proof (chunks_length_bounds (Z.to_nat k) ltac:(lia) text Hne) as Hb.
  set (c := length (chunks (Z.to_nat k) text)) in *.
  assert (Hn : 0 < length text) by (destruct text; [done|simpl; lia]).
  rewrite (proj2 (Z.ltb_lt 0 _)) by lia.
  assert (Hq : ((Z.of_nat (length text) - 0 - 1) / k = Z.of_nat c - 1)%Z).
  { symmetry. apply (Z.div_unique _ _ _ (Z.of_nat (length text) - 1 - k * (Z.of_nat c - 1))); [left|]; nia. }
  rewrite Hq. lia.
Qed.

Lemma split_text_chunks_eq (text : pystr) (k : Z) :
  (0 < k)%Z -> split_text text k = Ok (chunks (Z.to_nat k) text).
Proof.
  intros Hk. unfold split_text, py_range.
  rewrite (proj2 (Z.eqb_neq k 0)) by lia. simpl. f_equal.
  rewrite (chunks_as_map (Z.to_nat k) ltac:(lia) text).
  rewrite (range_len_chunks text k Hk), Nat2Z.id, map_map. apply map_ext. intros j.
  rewrite Z.add_0_l, py_slice_take_drop by lia. f_equal; try f_equal; lia.
Qed.

Lemma chunks_nth {A} (k : nat) (s : list A) (i : nat) (c : list A) :
  0 < k -> chunks k s !! i = Some c -> c = take k (drop (i * k) s) /\ i * k < length s.
Proof.
  intros Hk Hi. rewrite chunks_as_map in Hi by done.
  change (map ?f ?l) with (f <$> l) in Hi. apply list_lookup_fmap_Some in Hi as (j & -> & Hj).
  apply lookup_seq in Hj as [-> Hlt]. split; [done|].
  destruct (decide (s = [])) as [->|Hne]; [simpl in Hlt; lia|].
  pose proof (chunks_length_bounds k Hk s Hne). nia.
Qed.

(** C8: Equivalence: for every positive chunk size [k], the comprehension
    over [range(0, len(text), k)] of the slices [text[i:i+k]] computes the
    consecutive [k]-character pieces of the text. *)
Theorem split_text_chunks (text : pystr) (chunk_size : Z) :
  (0 < chunk_size)%Z -> split_text text chunk_size = Ok (chunks (Z.to_nat chunk_size) text).
Proof. apply split_text_chunks_eq. Qed.

Lemma split_text_chunks_witness :
  split_text (str "abcdefg") 3 = Ok (chunks 3 (str "abcdefg")).
Proof. apply (split_text_chunks (str "abcdefg") 3). lia. Defined.

(** C9: Round trip: for every positive chunk size, [split_text] succeeds and
    the concatenation of its chunks is the text, with no gap, overlap or
    duplication. *)
Theorem split_text_roundtrip (text : pystr) (chunk_size : Z) :
  (0 < chunk_size)%Z -> exists cs, split_text text chunk_size = Ok cs /\ concat cs = text.
Proof.
  intros Hk. exists (chunks (Z.to_nat chunk_size) text).
  split; [by apply split_text_chunks_eq|]. apply chunks_concat. lia.
Qed.

Lemma split_text_roundtrip_witness :
  exists cs, split_text (str "hello world") 4 = Ok cs /\ concat cs = str "hello world".
Proof. apply split_text_roundtrip. lia. Defined.

(** C10: Chunk sizes: with a positive size [k], the [i]-th chunk is
    [text[i*k : i*k + k]], of length [min k (len - i*k)] and never empty,
    and there are [ceil(len / k)] chunks. *)
Theorem split_text_sizes (text : pystr) (chunk_size : Z) (cs : list pystr) :
  (0 < chunk_size)%Z -> split_text text chunk_size = Ok cs ->
  length cs = Z.to_nat ((Z.of_nat (length text) + chunk_size - 1) / chunk_size) /\
  forall i c, cs !! i = Some c ->
    length c = Nat.min (Z.to_nat chunk_size) (length text - i * Z.to_nat chunk_size) /\
    0 < length c.
Proof.
  intros Hk Hs. rewrite split_text_chunks_eq in Hs by done. injection Hs as <-. split.
  - rewrite <- (Nat2Z.id (length _)), <- range_len_chunks by done. unfold range_len.
    rewrite (proj2 (Z.ltb_lt 0 _)) by done.
    destruct (Z.ltb_spec 0 (Z.of_nat (length text))) as [Hn|Hn].
    + f_equal. rewrite Z.sub_0_r.
      replace (Z.of_nat (length text) + chunk_size - 1)%Z
        with (Z.of_nat (length text) - 1 + 1 * chunk_size)%Z by lia.
      rewrite Z.div_add by lia. lia.
    + rewrite Z.div_small; lia.
  - intros i c Hi. destruct (chunks_nth (Z.to_nat chunk_size) text i c ltac:(lia) Hi) as [-> Hlt].
    rewrite length_take, length_drop. split; [done|nia].
Qed.

Lemma split_text_sizes_witness :
  length [str "hell"; str "o wo"; str "rld"] = 3%nat.
Proof.
  destruct (split_text_sizes (str "hello world") 4 [str "hell"; str "o wo"; str "rld"])
    as [H _]; [lia|vm_compute; reflexivity|].
  rewrite H. vm_compute. reflexivity.
Defined.

(** C25: Non-positive sizes: a zero size raises [ValueError] from
    [range]; a negative size makes [range] empty, so the whole text is
    dropped and no chunk is summarised. *)
Theorem split_text_nonpositive (text : pystr) (chunk_size : Z) :
  (chunk_size = 0%Z -> exists msg, split_text text chunk_size = Err (ValueError msg)) /\
  ((chunk_size < 0)%Z -> split_text text chunk_size = Ok []).
Proof.
  split.
  - intros ->. by eexists.
  - intros Hk. unfold split_text, py_range, range_len.
    rewrite (proj2 (Z.eqb_neq _ 0)), (proj2 (Z.ltb_ge 0 _)), (proj2 (Z.ltb_ge _ 0)) by lia.
    done.
Qed.

(** The spec's scenario: a text of 2500 characters and the default
    size 1000 give three chunks of 1000, 1000 and 500 characters. *)
Example split_text_scenario :
  match split_text (repeat "a"%char 2500) default_chunk_size with
  | Ok cs => map length cs = [1000; 1000; 500]%nat
  | Err _ => False
  end.
Proof. vm_compute. reflexivity. Qed.

End Chunking.
