(* ===== verification/Summarizer.v ===== *)
(** * The chunked summariser driver: [summarize_text]

    main.py 124-140.  The Hugging Face [pipeline("summarization", ...)] is
    an external collaborator, stated as the type class
    [SummarizationPipeline]: one call per chunk with [max_length=150],
    [min_length=30], [do_sample=False], returning a list of dicts or
    raising.  The driver splits the text with [split_text], reads
    [summary[0]['summary_text']] of every answer (an empty answer raises
    [IndexError], a dict without the key raises [KeyError]), appends it to
    [summaries], and joins them with single spaces.  Every exception
    propagates: there is no partial summary. *)

From S2P Require Import Prelude Chunking.

Module Summarizer.
Import Chunking.

(** A Python dict from strings to strings, in insertion order. *)
Abbreviation py_dict := (list (pystr * pystr)).

(** The collaborator: [summarizer(text, max_length=.., min_length=..,
    do_sample=..)]. *)
Class SummarizationPipeline := {
  summarizer : pystr -> Z -> Z -> bool -> result (list py_dict)
}.

(** [xs[i]] *)
Definition py_index {A} (xs : list A) (i : nat) : result A :=
  match xs !! i with
  | Some x => Ok x
  | None => Err (IndexError (str "list index out of range"))
  end.

(** [d[key]] *)
Definition dict_get (d : py_dict) (key : pystr) : result pystr :=
  match List.find (fun kv => bool_decide (fst kv = key)) d with
  | Some (_, v) => Ok v
  | None => Err (KeyError key)
  end.

Definition summary_max_length : Z := 150.
Definition summary_min_length : Z := 30.

Section Driver.
Context `{SummarizationPipeline}.

(** Lines 136-137 for one chunk. *)
Definition summarize_chunk (chunk : pystr) : result pystr :=
  bind (summarizer chunk summary_max_length summary_min_length false) (fun summary =>
  bind (py_index summary 0) (fun d =>
  dict_get d (str "summary_text"))).

(** Lines 133-137: [summaries = []], then one [append] per chunk. *)
Fixpoint summarize_chunks (chunks : list pystr) (summaries : list pystr) : result (list pystr) :=
  match chunks with
  | [] => Ok summaries
  | chunk :: rest =>
      bind (summarize_chunk chunk) (fun s => summarize_chunks rest (summaries ++ [s]))
  end.

(** Lines 124-140. *)
Definition summarize_text (input_text : pystr) : result pystr :=
  bind (split_text input_text default_chunk_size) (fun chunks =>
  bind (summarize_chunks chunks []) (fun summaries =>
  Ok (py_join (str " ") summaries))).

(** The loop succeeds exactly when every chunk does, and then appends their
    summaries in chunk order. *)
Lemma summarize_chunks_ok chunks acc out :
  summarize_chunks chunks acc = Ok out <->
  exists ss, Forall2 (fun c s => summarize_chunk c = Ok s) chunks ss /\ out = acc ++ ss.
Proof.
  revert acc. induction chunks as [|c cs IH]; intros acc; simpl.
  - split.
    + intros [= <-]. exists []. split; [constructor|]. by rewrite app_nil_r.
    + intros (ss & Hss & ->). inversion Hss. by rewrite app_nil_r.
  - destruct (summarize_chunk c) as [s|e] eqn:Ec; simpl.
    + rewrite IH. split.
      * intros (ss & Hss & ->). exists (s :: ss). split; [by constructor|]. by rewrite <- app_assoc.
      * intros (ss & Hss & ->). inversion Hss as [|? s' ? ss' Hs Hrest]; subst.
        rewrite Ec in Hs. injection Hs as <-. exists ss'. split; [done|]. by rewrite <- app_assoc.
    + split; [done|]. intros (ss & Hss & _). inversion Hss as [|? s' ? ? Hs]; subst. congruence.
Qed.

(** The first failing chunk's exception is the loop's. *)
Lemma summarize_chunks_err chunks acc j e :
  (forall i c, i < j -> chunks !! i = Some c -> is_ok (summarize_chunk c) = true) ->
  (exists c, chunks !! j = Some c /\ summarize_chunk c = Err e) ->
  summarize_chunks chunks acc = Err e.
Proof.
  revert acc j. induction chunks as [|c cs IH]; intros acc j Hbefore (c' & Hj & He); [done|].
  simpl. destruct j as [|j]; simpl in Hj.
  - injection Hj as ->. by rewrite He.
  - pose proof (Hbefore 0 c ltac:(lia) eq_refl) as H0.
    destruct (summarize_chunk c) as [s|e'] eqn:Ec; [|done]. simpl.
    apply (IH _ j); [|by exists c'].
    intros i c'' Hi Hl. apply (Hbefore (S i)); [lia|done].
Qed.

(** C11: [summarize_text] succeeds with [out] exactly when each
    1000-character chunk of the text, in order, is summarised without an
    exception, and [out] is those summaries joined by single spaces: one
    summary per chunk, in chunk order. *)
Theorem summarize_text_spec (input_text out : pystr) :
  summarize_text input_text = Ok out <->
  exists ss, Forall2 (fun c s => summarize_chunk c = Ok s)
               (chunks (Z.to_nat default_chunk_size) input_text) ss /\
             out = py_join (str " ") ss.
Proof.
  unfold summarize_text. rewrite split_text_chunks_eq by done. simpl.
  destruct (summarize_chunks _ []) as [ss|e] eqn:E; simpl.
  - apply summarize_chunks_ok in E as (ss' & Hss & ->). split.
    + intros [= <-]. by exists ss'.
    + intros (ss'' & Hss'' & ->). by rewrite (Forall2_result_functional _ _ _ _ Hss Hss'').
  - split; [done|]. intros (ss & Hss & _).
    assert (summarize_chunks (chunks (Z.to_nat default_chunk_size) input_text) [] = Ok ss)
      by (apply summarize_chunks_ok; by exists ss).
    congruence.
Qed.

(** C12: No partial summary: when the [j]-th chunk is the first whose
    summarisation raises [e] (the collaborator fails, answers an empty
    list, or a dict without ['summary_text']), [summarize_text] raises [e]. *)
Theorem summarize_text_error (input_text : pystr) (j : nat) (e : py_exc) :
  (forall i c, i < j -> chunks (Z.to_nat default_chunk_size) input_text !! i = Some c ->
     is_ok (summarize_chunk c) = true) ->
  (exists c, chunks (Z.to_nat default_chunk_size) input_text !! j = Some c /\
     summarize_chunk c = Err e) ->
  summarize_text input_text = Err e.
Proof.
  intros Hbefore Hj. unfold summarize_text. rewrite split_text_chunks_eq by done. simpl.
  by rewrite (summarize_chunks_err _ [] j e Hbefore Hj).
Qed.

End Driver.

(** A test double of the pipeline: it answers ["s" + the chunk's first
    character], and an empty list for chunks starting with ["x"]. *)
Definition first_char_pipeline : SummarizationPipeline := {|
  summarizer := fun chunk _ _ _ =>
    match chunk with
    | c :: _ => if Ascii.eqb c "x" then Ok [] else Ok [[(str "summary_text", "s"%char :: [c])]]
    | [] => Ok [[(str "summary_text", str "s")]]
    end
|}.

Lemma summarize_text_error_witness :
  @summarize_text first_char_pipeline (repeat "a"%char 1000 ++ repeat "x"%char 10) =
  Err (IndexError (str "list index out of range")).
Proof.
  apply (@summarize_text_error first_char_pipeline _ 1).
  - intros [|i] c Hi Hc; [|lia]. vm_compute in Hc. injection Hc as <-. vm_compute. reflexivity.
  - eexists. split; vm_compute; reflexivity.
Defined.

(** The spec's scenario: 2500 characters give three chunks, whose
    summaries [s1], [s2], [s3] are joined as ["s1 s2 s3"]. *)
Example summarize_text_scenario :
  @summarize_text first_char_pipeline
    (repeat "1"%char 1000 ++ repeat "2"%char 1000 ++ repeat "3"%char 500) = Ok (str "s1 s2 s3").
Proof. vm_compute. reflexivity. Qed.

End Summarizer.
