(* ===== verification/Cleaner.v ===== *)
(** * The text cleaner: [clean_summary_text]

    main.py 143-146:
    [re.sub(r'\b(?:um|uh|like|so|you know|well)\b', '', text, flags=re.IGNORECASE)]
    then [re.sub(r'\s+', ' ', text).strip()].

    The first substitution is modelled as the regex engine runs it: scan
    the original string left to right; at each position test [\b] (the
    previous and the next character differ in being word characters),
    try the alternatives in order, each matched case-insensitively and
    followed by [\b] (a failed trailing [\b] backtracks to the next
    alternative), delete the first that matches and resume after it, else
    keep one character and move on.  The scan runs on fuel equal to the
    length of the text, which [sub_fillers_fuel_enough] shows suffices.
    The second substitution replaces every maximal run of [\s] by one
    space, and [strip] removes leading and trailing whitespace. *)

From S2P Require Import Prelude.

Module Cleaner.

(** [\w] on ASCII: letters, digits and the underscore. *)
Definition is_word (c : ascii) : bool :=
  let n := nat_of_ascii c in
  ((48 <=? n) && (n <=? 57)) || ((65 <=? n) && (n <=? 90)) ||
  ((97 <=? n) && (n <=? 122)) || (n =? 95).

Definition word_opt (c : option ascii) : bool :=
  match c with Some c => is_word c | None => false end.

(** [\b] between the character before a position ([None] at the start)
    and the one after it ([None] at the end). *)
Definition at_boundary (prev next : option ascii) : bool :=
  xorb (word_opt prev) (word_opt next).

(** The case folding of [IGNORECASE] on ASCII. *)
Definition lower (c : ascii) : ascii :=
  let n := nat_of_ascii c in
  if (65 <=? n) && (n <=? 90) then ascii_of_nat (n + 32) else c.

Definition char_ieq (a b : ascii) : bool := Ascii.eqb (lower a) (lower b).

(** The alternatives of the group, in the pattern's order. *)
Definition fillers : list pystr :=
  [str "um"; str "uh"; str "like"; str "so"; str "you know"; str "well"].

(** The rest of [s] after a case-insensitive match of [pat] at its start. *)
Fixpoint match_prefix (pat s : pystr) : option pystr :=
  match pat, s with
  | [], _ => Some s
  | p :: pat', c :: s' => if char_ieq p c then match_prefix pat' s' else None
  | _ :: _, [] => None
  end.

(** [(?:alts)\b] at the start of [s]: the length of the first alternative
    that matches and is followed by a word boundary. *)
Fixpoint try_alts (alts : list pystr) (s : pystr) : option nat :=
  match alts with
  | [] => None
  | a :: rest =>
      match match_prefix a s with
      | Some s' =>
          if at_boundary (last (take (length a) s)) (head s') then Some (length a)
          else try_alts rest s
      | None => try_alts rest s
      end
  end.

(** The whole pattern at a position whose previous character is [prev]. *)
Definition filler_match (prev : option ascii) (s : pystr) : option nat :=
  if at_boundary prev (head s) then try_alts fillers s else None.

(** [re.sub(pattern, '', s)], scanning with the previous character. *)
Fixpoint sub_fillers_fuel (fuel : nat) (prev : option ascii) (s : pystr) : pystr :=
  match fuel with
  | O => s
  | S f =>
      match s with
      | [] => []
      | c :: rest =>
          match filler_match prev s with
          | Some n => sub_fillers_fuel f (last (take n s)) (drop n s)
          | None => c :: sub_fillers_fuel f (Some c) rest
          end
      end
  end.

Definition sub_fillers (s : pystr) : pystr := sub_fillers_fuel (length s) None s.

(** [re.sub(r'\s+', ' ', s)]: [in_ws] is whether the previous character
    was in the run just replaced. *)
Fixpoint collapse_ws (in_ws : bool) (s : pystr) : pystr :=
  match s with
  | [] => []
  | c :: rest =>
      if is_space c then
        if in_ws then collapse_ws true rest else " "%char :: collapse_ws true rest
      else c :: collapse_ws false rest
  end.

(** Line 145 and the [strip()] of line 145. *)
Definition normalize_ws (s : pystr) : pystr := strip (collapse_ws false s).

(** Lines 143-146. *)
Definition clean_summary_text (text : pystr) : pystr := normalize_ws (sub_fillers text).

(** ** The scanner *)

Lemma try_alts_pos alts s n :
  Forall (fun a => a <> []) alts -> try_alts alts s = Some n -> 0 < n.
Proof.
  induction 1 as [|a alts Ha _ IH]; simpl; [done|].
  destruct (match_prefix a s); [destruct (at_boundary _ _)|]; try done.
  intros [= <-]. destruct a; [done|simpl; lia].
Qed.

Lemma filler_match_pos prev s n : filler_match prev s = Some n -> 0 < n.
Proof.
  unfold filler_match. destruct (at_boundary _ _); [|done].
  apply try_alts_pos. repeat constructor; discriminate.
Qed.

(** Any fuel at least the length of the text gives the same result. *)
Lemma sub_fillers_fuel_enough fuel prev s :
  length s <= fuel -> sub_fillers_fuel fuel prev s = sub_fillers_fuel (length s) prev s.
Proof.
  revert prev fuel. induction s as [s IH] using (induction_ltof1 _ (@length ascii)).
  unfold ltof in IH. intros prev [|f] Hf; destruct s as [|c rest]; simpl in *; try done; [lia|].
  destruct (filler_match prev (c :: rest)) as [n|] eqn:E.
  - pose proof (filler_match_pos _ _ _ E).
    assert (Hd : length (drop n (c :: rest)) < S (length rest))
      by (rewrite length_drop; simpl; lia).
    rewrite (IH _ Hd _ f), (IH _ Hd _ (length rest)); [done| |];
      rewrite length_drop; simpl in *; lia.
  - f_equal. apply IH; lia.
Qed.

Lemma sub_fillers_fuel_unfold prev c rest :
  sub_fillers_fuel (length (c :: rest)) prev (c :: rest) =
  match filler_match prev (c :: rest) with
  | Some n => sub_fillers_fuel (length (drop n (c :: rest))) (last (take n (c :: rest)))
                (drop n (c :: rest))
  | None => c :: sub_fillers_fuel (length rest) (Some c) rest
  end.
Proof.
  simpl. destruct (filler_match prev (c :: rest)) as [n|] eqn:E; [|done].
  apply sub_fillers_fuel_enough. pose proof (filler_match_pos _ _ _ E).
  rewrite length_drop. simpl. lia.
Qed.

(** Whether no position of [s] starts a filler match. *)
Fixpoint no_filler (prev : option ascii) (s : pystr) : bool :=
  match s with
  | [] => true
  | c :: rest =>
      match filler_match prev s with
      | Some _ => false
      | None => no_filler (Some c) rest
      end
  end.

Lemma sub_fillers_fuel_sublist prev s : sub_fillers_fuel (length s) prev s `sublist_of` s.
Proof.
  revert prev. induction s as [s IH] using (induction_ltof1 _ (@length ascii)).
  unfold ltof in IH. intros prev. destruct s as [|c rest]; [done|].
  rewrite sub_fillers_fuel_unfold. destruct (filler_match prev (c :: rest)) as [n|] eqn:E.
  - pose proof (filler_match_pos _ _ _ E).
    etransitivity; [apply IH|apply sublist_drop]. rewrite length_drop. simpl. lia.
  - apply sublist_skip. apply IH. simpl. lia.
Qed.

Lemma sub_fillers_fuel_no_filler prev s :
  no_filler prev s = true -> sub_fillers_fuel (length s) prev s = s.
Proof.
  revert prev. induction s as [|c rest IH]; intros prev; [done|].
  rewrite sub_fillers_fuel_unfold. simpl. destruct (filler_match prev (c :: rest)); [done|].
  intros H. by rewrite IH.
Qed.

(** ** Whitespace normal form *)

Definition no_double_space (l : pystr) : Prop :=
  forall l1 l2, l <> l1 ++ " "%char :: " "%char :: l2.

(** Every whitespace character is a plain space and no two are adjacent. *)
Definition ws_ok (l : pystr) : Prop :=
  Forall (fun c => is_space c = true -> c = " "%char) l /\ no_double_space l.

(** No whitespace at either end. *)
Definition stripped (l : pystr) : Prop := lstrip l = l /\ lstrip (rev l) = rev l.

Lemma no_double_space_nil : no_double_space [].
Proof. intros [|? ?] ? H; discriminate. Qed.

Lemma no_double_space_cons c l :
  no_double_space (c :: l) <-> no_double_space l /\ (c = " "%char -> head l <> Some " "%char).
Proof.
  split.
  - intros H. split.
    + intros l1 l2 ->. apply (H (c :: l1) l2). done.
    + intros -> Hh. destruct l as [|c' l]; [done|]. injection Hh as ->. by apply (H [] l).
  - intros [H Hh] [|c1 l1] l2 Heq; injection Heq as -> Heq.
    + subst l. by apply Hh.
    + by apply (H l1 l2).
Qed.

Lemma no_double_space_suffix p l : no_double_space (p ++ l) -> no_double_space l.
Proof. intros H l1 l2 ->. apply (H (p ++ l1) l2). by rewrite <- app_assoc. Qed.

Lemma no_double_space_rev l : no_double_space l -> no_double_space (rev l).
Proof.
  intros H l1 l2 Heq. apply (H (rev l2) (rev l1)).
  rewrite <- (rev_involutive l), Heq, rev_app_distr. simpl. by rewrite <- !app_assoc.
Qed.

Lemma lstrip_suffix l : exists p, l = p ++ lstrip l.
Proof.
  induction l as [|c l [p Hp]]; [by exists []|]. simpl. destruct (is_space c).
  - exists (c :: p). simpl. by f_equal.
  - by exists [].
Qed.

Lemma lstrip_head l : forall c r, lstrip l = c :: r -> is_space c = false.
Proof.
  induction l as [|c' l IH]; intros c r; simpl; [done|].
  destruct (is_space c') eqn:E; [apply IH|]. by intros [= <- _].
Qed.

Lemma lstrip_no_head l : (forall c r, l = c :: r -> is_space c = false) -> lstrip l = l.
Proof. destruct l as [|c r]; [done|]. intros H. simpl. by rewrite (H c r eq_refl). Qed.

Lemma lstrip_idem l : lstrip (lstrip l) = lstrip l.
Proof. apply lstrip_no_head. apply lstrip_head. Qed.

Lemma ws_ok_suffix p l : ws_ok (p ++ l) -> ws_ok l.
Proof.
  intros [Hf Hd]. split; [|by apply no_double_space_suffix in Hd].
  by apply Forall_app in Hf as [_ ?].
Qed.

Lemma ws_ok_rev l : ws_ok l -> ws_ok (rev l).
Proof. intros [Hf Hd]. split; [by apply Forall_rev|by apply no_double_space_rev]. Qed.

Lemma ws_ok_lstrip l : ws_ok l -> ws_ok (lstrip l).
Proof. destruct (lstrip_suffix l) as [p Hp]. rewrite Hp at 1. apply ws_ok_suffix. Qed.

Lemma ws_ok_strip l : ws_ok l -> ws_ok (strip l).
Proof. intros H. unfold strip. by apply ws_ok_rev, ws_ok_lstrip, ws_ok_rev, ws_ok_lstrip. Qed.

Lemma collapse_ws_ok b s :
  ws_ok (collapse_ws b s) /\ (b = true -> forall c r, collapse_ws b s = c :: r -> is_space c = false).
Proof.
  revert b. induction s as [|c s IH]; intros b; simpl.
  - split; [split; [constructor|apply no_double_space_nil]|done].
  - destruct (IH true) as [[Hf Hd] Hh]. destruct (IH false) as [[Hf' Hd'] _].
    destruct (is_space c) eqn:Ec; [destruct b|].
    + split; [by split|done].
    + split; [|done]. split; [by constructor|].
      apply no_double_space_cons. split; [done|]. intros _.
      destruct (collapse_ws true s) as [|c' r] eqn:E; [done|].
      simpl. intros [= ->]. by specialize (Hh eq_refl _ _ eq_refl).
    + split; [|intros _ c' r [= <- _]; done]. split.
      * constructor; [by rewrite Ec|done].
      * apply no_double_space_cons. split; [done|]. intros ->. discriminate Ec.
Qed.

(** On a text already in normal form the collapse changes nothing. *)
Lemma collapse_ws_id b l :
  ws_ok l -> (b = true -> forall c r, l = c :: r -> is_space c = false) -> collapse_ws b l = l.
Proof.
  revert b. induction l as [|c l IH]; intros b [Hf Hd] Hb; [done|]. simpl.
  apply List.Forall_cons_iff in Hf as [Hc Hf]. apply no_double_space_cons in Hd as [Hd Hh].
  destruct (is_space c) eqn:Ec.
  - destruct b; [by rewrite (Hb eq_refl c l eq_refl) in Ec|].
    rewrite (Hc eq_refl). f_equal. apply IH; [by split|].
    intros _ c' r ->. destruct (is_space c') eqn:Ec'; [|done].
    exfalso. apply (Hh (Hc eq_refl)). simpl. f_equal.
    apply List.Forall_cons_iff in Hf as [Hc' _]. by apply Hc'.
  - f_equal. apply IH; [by split|done].
Qed.

(** A whitespace character other than the space is absent from a text in
    normal form. *)
Lemma ws_ok_not_elem c l : ws_ok l -> is_space c = true -> c <> " "%char -> c ∉ l.
Proof.
  intros [Hf _] Hs Hc Hin. rewrite Forall_forall in Hf. by apply Hc, Hf.
Qed.

Lemma strip_stripped l : stripped (strip l).
Proof.
  unfold stripped, strip. rewrite rev_involutive. split; [|apply lstrip_idem].
  apply lstrip_no_head. intros c r Hcr.
  set (X := rev (lstrip l)) in *.
  assert (HX : lstrip X = rev r ++ [c]) by (rewrite <- (rev_involutive (lstrip X)), Hcr; done).
  destruct (lstrip_suffix X) as [p Hp]. rewrite HX in Hp.
  apply (lstrip_head l c (rev (p ++ rev r))).
  rewrite <- (rev_involutive (lstrip l)). fold X. rewrite Hp, app_assoc, rev_app_distr. done.
Qed.

Lemma strip_id l : stripped l -> strip l = l.
Proof.
  intros [H1 H2]. unfold strip. by rewrite H1, H2, rev_involutive.
Qed.

(** C13: Whitespace normal form: after [re.sub(r'\s+', ' ', ...).strip()]
    every whitespace character is a plain space, no two are adjacent, and
    none is at either end. *)
Theorem normalize_ws_normal_form (s : pystr) :
  ws_ok (normalize_ws s) /\ stripped (normalize_ws s).
Proof.
  split; [apply ws_ok_strip, (collapse_ws_ok false s)|apply strip_stripped].
Qed.

(** C14: The whitespace normalisation alone is idempotent. *)
Theorem normalize_ws_idempotent (s : pystr) : normalize_ws (normalize_ws s) = normalize_ws s.
Proof.
  assert (Hok : ws_ok (normalize_ws s)) by apply ws_ok_strip, (collapse_ws_ok false s).
  pose proof (strip_stripped (collapse_ws false s)) as Hst.
  unfold normalize_ws at 1. rewrite (collapse_ws_id false); [by apply strip_id|done|done].
Qed.

(** C16: The filler substitution only deletes: its output is a
    subsequence of its input. *)
Theorem sub_fillers_sublist (s : pystr) : sub_fillers s `sublist_of` s.
Proof. apply sub_fillers_fuel_sublist. Qed.

(** The spec's scenario: ["um so this is great, you know"] cleans to
    ["this is great,"]. *)
Example clean_summary_text_scenario :
  clean_summary_text (str "um so this is great, you know") = str "this is great,".
Proof. vm_compute. reflexivity. Qed.

(** The cleaner is not idempotent: removing ["um"] from
    ["you um know"] leaves ["you know"] after the whitespace collapse, and
    a second pass removes it. *)
Theorem clean_summary_text_not_idempotent :
  exists s, clean_summary_text (clean_summary_text s) <> clean_summary_text s.
Proof. exists (str "you um know"). vm_compute. discriminate. Qed.

End Cleaner.
