(* ===== verification/FillerIdem.v ===== *)
(** * The filler substitution is idempotent

    [clean_summary_text] as a whole is not idempotent
    ([Cleaner.clean_summary_text_not_idempotent]); the failure comes from
    the whitespace collapse that follows the filler substitution.  The
    substitution alone, [re.sub(r'\b(?:um|uh|like|so|you know|well)\b',
    '', text, flags=re.IGNORECASE)] (main.py 144), is idempotent: a removed
    filler sits between two non-word characters (or an end of the text),
    and a filler starts and ends with a word character and never has two
    non-word characters side by side, so the junction left by a removal
    can neither start a new match nor lie inside one. *)

From S2P Require Import Prelude Cleaner.

Module FillerIdem.
Import Cleaner.

(** No two consecutive characters of [s] are both non-word characters. *)
Fixpoint no_double_nonword (s : pystr) : bool :=
  match s with
  | c1 :: (c2 :: _) as rest => (is_word c1 || is_word c2) && no_double_nonword rest
  | _ => true
  end.

(** A filler starts and ends with a word character and has no two
    non-word characters side by side. *)
Definition filler_ok (a : pystr) : bool :=
  match a with
  | x :: _ => is_word x && word_opt (last a) && no_double_nonword a
  | [] => false
  end.

Local Abbreviation scan prev s := (sub_fillers_fuel (length s) prev s).

(** ** Characters *)

Lemma is_word_lower c : is_word (lower c) = is_word c.
Proof. destruct c as [[] [] [] [] [] [] [] []]; reflexivity. Qed.

Lemma char_ieq_word p c : char_ieq p c = true -> is_word p = is_word c.
Proof.
  unfold char_ieq. intros E. apply Ascii.eqb_eq in E.
  by rewrite <- (is_word_lower p), <- (is_word_lower c), E.
Qed.

(** ** The alternatives *)

Lemma fillers_ok a : In a fillers -> filler_ok a = true.
Proof.
  intros Ha. assert (Hall : forallb filler_ok fillers = true) by reflexivity.
  rewrite forallb_forall in Hall. by apply Hall.
Qed.

Lemma ieq_last a x :
  Forall2 (fun p c => char_ieq p c = true) a x -> word_opt (last a) = word_opt (last x).
Proof.
  induction 1 as [|p c a x Hpc Hax IH]; [done|].
  destruct Hax as [|p' c' a' x']; simpl; [by apply char_ieq_word|]. exact IH.
Qed.

Lemma no_double_cons2 c1 c2 r :
  no_double_nonword (c1 :: c2 :: r) = (is_word c1 || is_word c2) && no_double_nonword (c2 :: r).
Proof. reflexivity. Qed.

Lemma ieq_no_double a x :
  Forall2 (fun p c => char_ieq p c = true) a x -> no_double_nonword a = no_double_nonword x.
Proof.
  induction 1 as [|p c a x Hpc Hax IH]; [done|].
  destruct Hax as [|p' c' a' x' Hpc']; [done|]. rewrite !no_double_cons2.
  by rewrite (char_ieq_word _ _ Hpc), (char_ieq_word _ _ Hpc'), IH.
Qed.

Lemma no_double_junction y c1 c2 z :
  no_double_nonword (y ++ c1 :: c2 :: z) = true -> is_word c1 || is_word c2 = true.
Proof.
  induction y as [|a y IH]; simpl app.
  - rewrite no_double_cons2. intros H. exact (proj1 (andb_prop _ _ H)).
  - destruct y as [|b y]; simpl app in *; rewrite no_double_cons2;
      intros H; apply andb_prop in H as [_ H]; by apply IH.
Qed.

(** ** Matching a prefix *)

Lemma match_prefix_some a s s' :
  match_prefix a s = Some s' ->
  exists x, s = x ++ s' /\ length x = length a /\ Forall2 (fun p c => char_ieq p c = true) a x.
Proof.
  revert s. induction a as [|p a IH]; intros s H.
  - injection H as <-. by exists [].
  - destruct s as [|c s]; [done|]. simpl in H. destruct (char_ieq p c) eqn:E; [|done].
    destruct (IH _ H) as (x & -> & Hl & Hf). exists (c :: x). simpl. split; [done|].
    split; [by rewrite Hl|by constructor].
Qed.

Lemma match_prefix_app a x y :
  Forall2 (fun p c => char_ieq p c = true) a x -> match_prefix a (x ++ y) = Some y.
Proof. induction 1 as [|p c a x Hpc _ IH]; simpl; [done|]. by rewrite Hpc. Qed.

Lemma take_length_app {A} (x y : list A) n : length x = n -> take n (x ++ y) = x.
Proof. intros <-. by rewrite take_app_length. Qed.

(** ** The alternatives tried in order *)

Lemma try_alts_some alts s n :
  try_alts alts s = Some n ->
  exists a s', In a alts /\ match_prefix a s = Some s' /\
    at_boundary (last (take (length a) s)) (head s') = true /\ n = length a.
Proof.
  induction alts as [|a alts IH]; simpl; [done|].
  destruct (match_prefix a s) as [s'|] eqn:Em.
  - destruct (at_boundary _ _) eqn:Eb.
    + intros [= <-]. exists a, s'. by repeat split; [left| |].
    + intros H. destruct (IH H) as (a' & s'' & ? & ? & ? & ?). exists a', s''. by repeat split; [right| | |].
  - intros H. destruct (IH H) as (a' & s'' & ? & ? & ? & ?). exists a', s''. by repeat split; [right| | |].
Qed.

Lemma try_alts_none alts s a s' :
  try_alts alts s = None -> In a alts -> match_prefix a s = Some s' ->
  at_boundary (last (take (length a) s)) (head s') = false.
Proof.
  induction alts as [|a0 alts IH]; simpl; [done|]. intros Hn [<-|Hin] Hm.
  - rewrite Hm in Hn. by destruct (at_boundary _ _).
  - apply IH; [|done|done]. revert Hn. repeat case_match; done.
Qed.

(** No filler starts with a non-word character. *)
Lemma try_alts_nonword alts d r :
  Forall (fun a => filler_ok a = true) alts -> is_word d = false -> try_alts alts (d :: r) = None.
Proof.
  intros Hall Hd. induction Hall as [|a alts Ha _ IH]; simpl; [done|].
  destruct a as [|x a]; [done|]. simpl.
  destruct (char_ieq x d) eqn:E.
  - apply char_ieq_word in E. simpl in Ha. rewrite E, Hd in Ha. discriminate.
  - exact IH.
Qed.

Lemma fillers_all_ok : Forall (fun a => filler_ok a = true) fillers.
Proof. apply List.Forall_forall. apply fillers_ok. Qed.

(** What a removal tells about its surroundings: a non-word character (or
    the start) before it, a non-word character (or the end) after it. *)
Lemma filler_match_some p s n :
  filler_match p s = Some n ->
  exists x s', s = x ++ s' /\ length x = n /\ word_opt p = false /\
    word_opt (last x) = true /\ word_opt (head s') = false.
Proof.
  unfold filler_match. destruct (at_boundary p (head s)) eqn:Eb; [|done]. intros Ht.
  destruct (try_alts_some _ _ _ Ht) as (a & s' & Ha & Hm & Hb & ->).
  destruct (match_prefix_some _ _ _ Hm) as (x & -> & Hl & Hf).
  pose proof (fillers_ok a Ha) as Hok. exists x, s'.
  rewrite take_length_app in Hb by done.
  assert (Hlast : word_opt (last x) = true).
  { rewrite <- (ieq_last _ _ Hf). destruct a; [done|]. simpl in Hok. by apply andb_prop in Hok as [[_ ?]%andb_prop _]. }
  split; [done|]. split; [done|]. split; [|split; [done|]].
  - destruct Hf as [|p0 c0 a0 x0 Hpc _]; [done|]. simpl in Hok. unfold at_boundary in Eb. simpl in Eb.
    apply char_ieq_word in Hpc. apply andb_prop in Hok as [[Hw _]%andb_prop _].
    rewrite <- Hpc, Hw in Eb. by destruct (word_opt p).
  - unfold at_boundary in Hb. rewrite Hlast in Hb. by destruct (word_opt (head s')).
Qed.

(** ** The scan *)

Lemma scan_nonword_head p d r :
  is_word d = false -> scan p (d :: r) = d :: scan (Some d) r.
Proof.
  intros Hd. rewrite sub_fillers_fuel_unfold. unfold filler_match.
  destruct (at_boundary _ _); [|done].
  by rewrite (try_alts_nonword _ _ _ fillers_all_ok Hd).
Qed.

(** The scan after a character [c] copies some text [u] and then either
    reaches the end or removes a filler at [w]. *)
Lemma scan_window c rest :
  exists u w out_w, rest = u ++ w /\ scan (Some c) rest = u ++ out_w /\
    ((w = [] /\ out_w = []) \/
     exists n, filler_match (last (c :: u)) w = Some n /\
               out_w = scan (last (take n w)) (drop n w)).
Proof.
  revert c. induction rest as [|d r IH]; intros c.
  - exists [], [], []. repeat split; [by left].
  - rewrite sub_fillers_fuel_unfold. destruct (filler_match (Some c) (d :: r)) as [n|] eqn:E.
    + exists [], (d :: r), (scan (last (take n (d :: r))) (drop n (d :: r))).
      split; [done|]. split; [done|]. right. by exists n.
    + destruct (IH d) as (u & w & ow & -> & Hs & Hw). exists (d :: u), w, ow.
      split; [done|]. split; [by rewrite Hs|]. exact Hw.
Qed.

(** Where the scan copied [c] because no filler starts there, no filler
    starts there in the output either. *)
Lemma scan_keeps_no_match p c rest :
  filler_match p (c :: rest) = None -> filler_match p (c :: scan (Some c) rest) = None.
Proof.
  unfold filler_match. cbn [head]. destruct (at_boundary p (Some c)); [|done].
  intros Hn. destruct (try_alts fillers (c :: scan (Some c) rest)) as [k0|] eqn:Ek; [exfalso|done].
  destruct (try_alts_some _ _ _ Ek) as (a & s'' & Ha & Hm & Hb & _).
  destruct (match_prefix_some _ _ _ Hm) as (x & Hx & Hlx & Hf).
  rewrite Hx, take_length_app in Hb by done.
  pose proof (fillers_ok a Ha) as Hok.
  assert (Hlast : word_opt (last x) = true).
  { rewrite <- (ieq_last _ _ Hf). destruct a; [done|]. simpl in Hok.
    by apply andb_prop in Hok as [[_ ?]%andb_prop _]. }
  assert (Hdbl : no_double_nonword x = true).
  { rewrite <- (ieq_no_double _ _ Hf). destruct a; [done|]. simpl in Hok.
    by apply andb_prop in Hok as [_ ?]. }
  (* In the original text, [a] matched at the same place would give a match. *)
  assert (Hcontra : forall s', c :: rest = x ++ s' -> at_boundary (last x) (head s') = false).
  { intros s' Hs. pose proof (try_alts_none fillers (c :: rest) a s' Hn Ha) as T.
    rewrite Hs, take_length_app in T by done. apply T. by apply match_prefix_app. }
  destruct (scan_window c rest) as (u & w & ow & -> & Hout & Hw).
  rewrite Hout in Hx. change (c :: u ++ ow) with ((c :: u) ++ ow) in Hx.
  apply app_eq_app in Hx as (k & [[Hcu ->]|[-> Hk]]).
  - destruct k as [|d k].
    + rewrite app_nil_r in Hcu. subst x. destruct Hw as [[-> ->]|(n & Hfm & _)].
      * specialize (Hcontra [] ltac:(by rewrite ?app_nil_r)). congruence.
      * destruct (filler_match_some _ _ _ Hfm) as (_ & _ & _ & _ & Hnw & _ & _). congruence.
    + specialize (Hcontra (d :: k ++ w) ltac:(change (c :: u ++ w) with ((c :: u) ++ w); by rewrite Hcu, <- app_assoc)). cbn [head app] in Hb, Hcontra. congruence.
  - destruct k as [|d k].
    + rewrite ?app_nil_r in Hb, Hlast, Hdbl. simpl in Hk. subst ow.
      destruct Hw as [[-> ->]|(n & Hfm & _)].
      * specialize (Hcontra [] ltac:(by rewrite ?app_nil_r)). rewrite ?app_nil_r in Hcontra. congruence.
      * destruct (filler_match_some _ _ _ Hfm) as (_ & _ & _ & _ & Hnw & _ & _). congruence.
    + destruct Hw as [[_ ->]|(n & Hfm & Hsc)]; [done|].
      destruct (filler_match_some _ _ _ Hfm) as (F & w0 & -> & HlF & Hnw & _ & Hw0).
      rewrite <- HlF, drop_app_length, take_app_length in Hsc.
      destruct w0 as [|d0 r0]; [rewrite Hsc in Hk; simpl in Hk; discriminate|]. simpl in Hw0.
      rewrite scan_nonword_head in Hsc by done. rewrite Hsc in Hk. injection Hk as <- _.
      destruct (exists_last (l := c :: u) ltac:(done)) as (y & l & Hyl).
      rewrite Hyl, last_snoc in Hnw. simpl in Hnw. rewrite Hyl, <- app_assoc in Hdbl.
      apply no_double_junction in Hdbl. rewrite Hnw, Hw0 in Hdbl. discriminate.
Qed.

(** The scan's output has no filler, when its previous character is the
    one of the input or both are non-word characters. *)
Lemma scan_no_filler s po pout :
  (po = pout \/ (word_opt pout = false /\ word_opt (head s) = false)) ->
  no_filler pout (scan po s) = true.
Proof.
  revert po pout. induction s as [s IH] using (induction_ltof1 _ (@length ascii)).
  unfold ltof in IH. intros po pout Hrel. destruct s as [|c rest]; [done|].
  rewrite sub_fillers_fuel_unfold. destruct (filler_match po (c :: rest)) as [n|] eqn:E.
  - destruct (filler_match_some _ _ _ E) as (x & s' & Hs & Hl & Hpo & Hlx & Hs').
    pose proof (filler_match_pos _ _ _ E). apply IH.
    + rewrite length_drop. simpl. lia.
    + right. rewrite Hs, <- Hl, drop_app_length. split; [|done].
      destruct Hrel as [<-|[? _]]; done.
  - simpl. destruct Hrel as [<-|[Hp Hc]].
    + rewrite scan_keeps_no_match by done. apply IH; [simpl; lia|by left].
    + unfold filler_match at 1. cbn [head]. unfold at_boundary at 1. rewrite Hp. simpl in Hc |- *.
      rewrite Hc. apply IH; [simpl; lia|by left].
Qed.

(** C15: The filler substitution of [clean_summary_text] is idempotent:
    running [re.sub] of the filler pattern on its own output changes
    nothing, because its output contains no word-bounded filler. *)
Theorem sub_fillers_idempotent (s : pystr) :
  no_filler None (sub_fillers s) = true /\ sub_fillers (sub_fillers s) = sub_fillers s.
Proof.
  assert (Hn : no_filler None (sub_fillers s) = true) by (apply scan_no_filler; by left).
  split; [done|]. by apply sub_fillers_fuel_no_filler.
Qed.

End FillerIdem.
