(* ===== verification/Bullets.v ===== *)
(** * The bullet formatter: [summary_to_bullets]

    main.py 149-153: clean the summary, split it on the literal [". "]
    with [str.split], keep the pieces with [len(sentence) > 10 and
    sentence] (the length of the piece before it is stripped) and render
    each as ["- " + sentence.strip()], joined by newlines.

    [py_split] is [str.split(sep)]: the pieces between the leftmost
    non-overlapping occurrences of [sep], an empty separator raising
    [ValueError].  It runs on fuel [1 + len(s)], which is enough because
    each occurrence found consumes at least one character. *)

From S2P Require Import Prelude Cleaner.

Module Bullets.
Import Cleaner.

(** The rest of [s] after an exact match of [p] at its start. *)
Fixpoint strip_prefix (p s : pystr) : option pystr :=
  match p, s with
  | [], _ => Some s
  | x :: p', c :: s' => if Ascii.eqb x c then strip_prefix p' s' else None
  | _ :: _, [] => None
  end.

(** The text before the first occurrence of [sep] and the text after it. *)
Fixpoint find_sep (sep s : pystr) : option (pystr * pystr) :=
  match strip_prefix sep s with
  | Some after => Some ([], after)
  | None =>
      match s with
      | [] => None
      | c :: rest =>
          match find_sep sep rest with
          | Some (before, after) => Some (c :: before, after)
          | None => None
          end
      end
  end.

Fixpoint py_split_fuel (fuel : nat) (sep s : pystr) : list pystr :=
  match fuel with
  | O => [s]
  | S f =>
      match find_sep sep s with
      | Some (before, after) => before :: py_split_fuel f sep after
      | None => [s]
      end
  end.

(** [s.split(sep)] *)
Definition py_split (sep s : pystr) : result (list pystr) :=
  match sep with
  | [] => Err (ValueError (str "empty separator"))
  | _ :: _ => Ok (py_split_fuel (S (length s)) sep s)
  end.

Definition newline : ascii := "010"%char.

(** Line 152: the filter of the comprehension. *)
Definition keep_sentence (sentence : pystr) : bool :=
  (10 <? length sentence) && negb (bool_decide (sentence = [])).

(** Line 152: [bullet_points]. *)
Definition bullet_points (sentences : list pystr) : list pystr :=
  map (fun sentence => str "- " ++ strip sentence) (List.filter keep_sentence sentences).

(** Lines 149-153. *)
Definition summary_to_bullets (summary_text : pystr) : result pystr :=
  let summary_text := clean_summary_text summary_text in
  bind (py_split (str ". ") summary_text) (fun sentences =>
  Ok (py_join [newline] (bullet_points sentences))).

(** ** The splitter *)

Lemma strip_prefix_app p s a : strip_prefix p s = Some a -> s = p ++ a.
Proof.
  revert s. induction p as [|x p IH]; intros s H.
  - simpl in H. by injection H as <-.
  - destruct s as [|c s]; [done|]. simpl in H.
    destruct (Ascii.eqb_spec x c) as [->|]; [|done]. simpl. f_equal. by apply IH.
Qed.

Lemma strip_prefix_extend p s t a : strip_prefix p s = Some a -> strip_prefix p (s ++ t) = Some (a ++ t).
Proof.
  revert s. induction p as [|x p IH]; intros s H.
  - simpl in H. by injection H as <-.
  - destruct s as [|c s]; [done|]. simpl in *. destruct (Ascii.eqb x c); [by apply IH|done].
Qed.

Lemma find_sep_app sep s b a : find_sep sep s = Some (b, a) -> s = b ++ sep ++ a.
Proof.
  revert b. induction s as [|c s IH]; intros b; simpl.
  - destruct (strip_prefix sep []) eqn:E; [|done]. intros [= <- <-]. exact (strip_prefix_app sep _ _ E).
  - destruct (strip_prefix sep (c :: s)) eqn:E.
    + intros [= <- <-]. exact (strip_prefix_app sep _ _ E).
    + destruct (find_sep sep s) as [[b' a']|]; [|done]. intros [= <- <-]. simpl. f_equal. by apply IH.
Qed.

(** The text before the first occurrence contains no occurrence. *)
Lemma find_sep_first sep s b a :
  sep <> [] -> find_sep sep s = Some (b, a) -> find_sep sep b = None.
Proof.
  intros Hsep. revert b. induction s as [|c s IH]; intros b; simpl.
  - destruct (strip_prefix sep []) eqn:E; [|done]. destruct sep; [done|discriminate E].
  - destruct (strip_prefix sep (c :: s)) eqn:E.
    + intros [= <- <-]. simpl. destruct sep; [done|reflexivity].
    + destruct (find_sep sep s) as [[b' a']|] eqn:Ef; [|done]. intros [= <- <-].
      simpl. specialize (IH b' eq_refl). rewrite IH.
      destruct (strip_prefix sep (c :: b')) eqn:E'; [|done].
      apply find_sep_app in Ef. subst s.
      apply (strip_prefix_extend _ _ (sep ++ a')) in E'. simpl in E, E'. congruence.
Qed.

Lemma find_sep_length sep s b a :
  sep <> [] -> find_sep sep s = Some (b, a) -> length a < length s.
Proof.
  intros Hsep H. apply find_sep_app in H. subst s. rewrite !length_app.
  destruct sep; [done|simpl; lia].
Qed.

Lemma py_split_fuel_nonempty fuel sep s : py_split_fuel fuel sep s <> [].
Proof.
  destruct fuel; simpl; [done|]. by destruct (find_sep sep s) as [[? ?]|].
Qed.

Lemma py_split_fuel_join fuel sep s : py_join sep (py_split_fuel fuel sep s) = s.
Proof.
  revert s. induction fuel as [|f IH]; intros s; simpl; [done|].
  destruct (find_sep sep s) as [[b a]|] eqn:E; [|done].
  apply find_sep_app in E. rewrite E, py_join_cons, IH; [done|].
  apply py_split_fuel_nonempty.
Qed.

(** With fuel [1 + len(s)], no piece contains the separator: the fuel
    never runs out before the last occurrence. *)
Lemma py_split_fuel_pieces fuel sep s :
  sep <> [] -> length s < fuel -> Forall (fun p => find_sep sep p = None) (py_split_fuel fuel sep s).
Proof.
  intros Hsep. revert s. induction fuel as [|f IH]; intros s Hf; simpl; [lia|].
  destruct (find_sep sep s) as [[b a]|] eqn:E.
  - constructor; [by eapply find_sep_first|]. apply IH.
    pose proof (find_sep_length _ _ _ _ Hsep E). lia.
  - by constructor.
Qed.

Lemma keep_sentence_length u : keep_sentence u = (10 <? length u).
Proof.
  unfold keep_sentence. destruct (Nat.ltb_spec 10 (length u)); [|done].
  rewrite bool_decide_false; [done|]. intros ->. simpl in *. lia.
Qed.

(** Round trip of [str.split]: for a non-empty separator the split
    succeeds, joining its pieces with the separator gives back the text,
    and no piece contains the separator. *)
Lemma py_split_roundtrip (sep s : pystr) :
  sep <> [] ->
  exists parts, py_split sep s = Ok parts /\ py_join sep parts = s /\
    Forall (fun p => find_sep sep p = None) parts.
Proof.
  intros Hsep. destruct sep as [|x sep']; [done|].
  eexists. split; [reflexivity|]. split; [apply py_split_fuel_join|].
  apply py_split_fuel_pieces; [done|lia].
Qed.

(** *** Splitting on one character *)

Lemma find_sep_single c s : find_sep [c] s = None <-> c ∉ s.
Proof.
  induction s as [|x r IH]; simpl; [split; [intros; apply not_elem_of_nil|done]|].
  destruct (Ascii.eqb_spec c x) as [->|Hx].
  - split; [done|]. intros Hn. exfalso. apply Hn. constructor.
  - rewrite not_elem_of_cons. destruct (find_sep [c] r) as [[? ?]|] eqn:E.
    + split; [done|]. intros [_ Hn]. apply IH in Hn. congruence.
    + split; [intros _; split; [done|by apply IH]|done].
Qed.

Lemma find_sep_single_app c l r : c ∉ l -> find_sep [c] (l ++ c :: r) = Some (l, r).
Proof.
  induction l as [|x l IH]; simpl; intros Hn; [by rewrite Ascii.eqb_refl|].
  apply not_elem_of_cons in Hn as [Hx Hn].
  rewrite (proj2 (Ascii.eqb_neq c x)) by congruence. by rewrite IH.
Qed.

Lemma py_join_single_length c ls : length ls <= S (length (py_join [c] ls)).
Proof.
  induction ls as [|l [|l' ls] IH]; simpl; [lia|lia|].
  simpl in IH. rewrite length_app. simpl. lia.
Qed.

Lemma py_split_fuel_join_single c ls fuel :
  ls <> [] -> Forall (fun l => c ∉ l) ls -> length ls <= fuel ->
  py_split_fuel fuel [c] (py_join [c] ls) = ls.
Proof.
  revert fuel. induction ls as [|l [|l' ls] IH]; intros fuel Hne Hf Hl; [done| |];
    destruct fuel as [|fuel]; simpl in Hl; try lia; apply Forall_cons in Hf as [Hc Hf].
  - simpl. by rewrite (proj2 (find_sep_single c l) Hc).
  - cbn [py_join py_split_fuel app]. rewrite find_sep_single_app by done.
    f_equal. apply IH; [done|done|simpl; lia].
Qed.

(** Splitting on [c] a join with [c] of pieces free of [c] gives the
    pieces back. *)
Lemma py_split_join_single c ls :
  ls <> [] -> Forall (fun l => c ∉ l) ls -> py_split [c] (py_join [c] ls) = Ok ls.
Proof.
  intros Hne Hf. unfold py_split. f_equal. apply py_split_fuel_join_single; [done|done|].
  apply py_join_single_length.
Qed.

(** *** Characters of the pieces *)

Lemma py_join_elem sep parts p x : p ∈ parts -> x ∈ p -> x ∈ py_join sep parts.
Proof.
  induction parts as [|q [|q' parts] IH]; intros Hp Hx; [by apply not_elem_of_nil in Hp| |].
  - apply list_elem_of_singleton in Hp as ->. done.
  - cbn [py_join]. rewrite !elem_of_app. apply elem_of_cons in Hp as [->|Hp]; [by left|].
    right. right. by apply IH.
Qed.

Lemma lstrip_elem x l : x ∈ lstrip l -> x ∈ l.
Proof. destruct (lstrip_suffix l) as [p Hp]. rewrite Hp at 2. rewrite elem_of_app. by right. Qed.

Lemma rev_elem x (l : pystr) : x ∈ rev l <-> x ∈ l.
Proof. rewrite !list_elem_of_In. symmetry. apply in_rev. Qed.

Lemma strip_elem x l : x ∈ strip l -> x ∈ l.
Proof.
  unfold strip. rewrite rev_elem. intros H.
  by apply lstrip_elem, rev_elem, lstrip_elem in H.
Qed.

(** The cleaned text has no newline: the collapse turned it into a space. *)
Lemma clean_summary_text_no_newline s : newline ∉ clean_summary_text s.
Proof.
  apply (ws_ok_not_elem newline); [apply ws_ok_strip, (collapse_ws_ok false)|reflexivity|discriminate].
Qed.

(** C19: The output of [summary_to_bullets] is one line per piece of the
    cleaned text split on [". "] whose unstripped length exceeds 10, in
    order: splitting the output at newlines gives exactly the lines
    ["- " + strip(u)] of those pieces (and the output is empty when there
    is none); each line starts with ["- "] and holds no newline, because
    the cleaner has turned every newline of the summary into a space. *)
Theorem summary_to_bullets_lines (summary_text : pystr) :
  exists sentences out,
    py_split (str ". ") (clean_summary_text summary_text) = Ok sentences /\
    summary_to_bullets summary_text = Ok out /\
    let lines := map (fun u => str "- " ++ strip u) (List.filter (fun u => 10 <? length u) sentences) in
    ((lines = [] /\ out = []) \/ (lines <> [] /\ py_split [newline] out = Ok lines)) /\
    Forall (fun l => take 2 l = str "- " /\ (newline ∉ l)) lines.
Proof.
  destruct (py_split_roundtrip (str ". ") (clean_summary_text summary_text))
    as (sentences & Hs & Hj & _); [discriminate|].
  assert (Hb : bullet_points sentences =
               map (fun u => str "- " ++ strip u) (List.filter (fun u => 10 <? length u) sentences)).
  { unfold bullet_points. f_equal. apply List.filter_ext. apply keep_sentence_length. }
  exists sentences, (py_join [newline] (bullet_points sentences)).
  split; [done|]. split; [unfold summary_to_bullets; by rewrite Hs|]. cbv zeta. rewrite <- Hb.
  assert (Hl : Forall (fun l => take 2 l = str "- " /\ (newline ∉ l)) (bullet_points sentences)).
  { apply Forall_forall. intros l Hl. unfold bullet_points in Hl.
    apply list_elem_of_In, in_map_iff in Hl as (u & <- & Hu). apply filter_In in Hu as [Hu _].
    apply list_elem_of_In in Hu.
    split; [done|]. rewrite elem_of_app. intros [Hn|Hn].
    - repeat (apply elem_of_cons in Hn as [Hn|Hn]; [discriminate Hn|]). by apply not_elem_of_nil in Hn.
    - apply (clean_summary_text_no_newline summary_text). rewrite <- Hj.
      apply (py_join_elem _ _ u); [done|by apply strip_elem]. }
  split; [|done].
  destruct (bullet_points sentences) as [|l ls] eqn:E; [by left|right].
  split; [done|]. apply py_split_join_single; [done|]. eapply Forall_impl; [exact Hl|]. by intros l' [_ Hn].
Qed.

(** The length test is on the unstripped piece, so a unit whose
    stripped length is exactly 10 is still emitted, against the spec's
    "units at or below that threshold after trimming are dropped". *)
Example summary_to_bullets_trimmed_ten :
  summary_to_bullets (str "abcdefghij . The next sentence is long") =
  Ok (str "- abcdefghij" ++ [newline] ++ str "- The next sentence is long").
Proof. vm_compute. reflexivity. Qed.

(** The spec's scenario gives two bullets, not one: ["A short one"]
    has 11 characters, and the split consumes the period of the second
    sentence. *)
Example summary_to_bullets_scenario :
  summary_to_bullets (str "A short one. This sentence is definitely long enough. No.") =
  Ok (str "- A short one" ++ [newline] ++ str "- This sentence is definitely long enough").
Proof. vm_compute. reflexivity. Qed.

End Bullets.
