(* ===== verification/Streamlit.v ===== *)
(** * The effects of a script run: the display trace

    A Streamlit script shows its output as it runs.  Every [st.title],
    [st.write], [st.text], every widget ([st.selectbox], [st.file_uploader],
    [st.slider], [st.button]), every [print] to stdout, and every file the
    script writes is an [event].  A run is a computation in the monad [ui]:
    it extends the trace and returns a value or raises a [py_exc].  An
    exception stops the script, but what it has already shown stays on the
    page, so the trace is kept on both outcomes. *)

From S2P Require Import Prelude.

Module Streamlit.

Inductive event :=
  | Title (s : pystr)                      (** [st.title(s)] *)
  | Write (s : pystr)                      (** [st.write(s)] *)
  | Text (s : pystr)                       (** [st.text(s)] *)
  | Widget (label : pystr)                 (** a widget rendered with this label *)
  | Stdout (s : pystr)                     (** [print(s)] *)
  | SaveFile (name : pystr) (data : list Byte.byte)  (** bytes written to [name] *)
  | SaveWav (name : pystr) (nchannels sampwidth framerate : Z) (frames : list Byte.byte)
      (** a WAV file written with [wave] *)
  | ReadAudio (src : pystr)                (** the audio of the file [src] decoded *)
  | WriteAudio (dst : pystr).              (** the audio last decoded written to [dst] *)

(** A computation that extends the trace and returns an [A] or raises. *)
Definition ui (A : Type) : Type := list event -> list event * result A.

Definition ui_ret {A} (a : A) : ui A := fun tr => (tr, Ok a).

Definition ui_bind {A B} (m : ui A) (k : A -> ui B) : ui B :=
  fun tr => match m tr with
            | (tr', Ok a) => k a tr'
            | (tr', Err e) => (tr', Err e)
            end.

Definition emit (ev : event) : ui unit := fun tr => (tr ++ [ev], Ok tt).

(** A pure Python computation that may raise. *)
Definition ui_lift {A} (r : result A) : ui A := fun tr => (tr, r).

Declare Scope ui_scope.
Delimit Scope ui_scope with ui.
Notation "x <<- m ;; k" := (ui_bind m (fun x => k))
  (at level 100, m at next level, right associativity) : ui_scope.
Notation "m ;;; k" := (ui_bind m (fun _ => k))
  (at level 100, right associativity) : ui_scope.

(** The events a run adds to its starting trace. *)
Definition run {A} (m : ui A) : list event * result A := m [].

(** A computation only appends to the trace it starts from. *)
Definition framed {A} (m : ui A) : Prop :=
  forall tr, m tr = (tr ++ fst (m []), snd (m [])).

(** The text blocks on the page: the arguments of [st.text], in order. *)
Definition texts (tr : list event) : list pystr :=
  omap (fun ev => match ev with Text s => Some s | _ => None end) tr.

Definition is_text (ev : event) : bool := match ev with Text _ => true | _ => false end.

(** A computation that appends to the trace and shows no text block. *)
Definition quiet {A} (m : ui A) : Prop := framed m /\ texts (fst (m [])) = [].

(** ** The monad's laws and its frame property *)

Lemma ui_bind_ret_l {A B} (a : A) (k : A -> ui B) tr : ui_bind (ui_ret a) k tr = k a tr.
Proof. reflexivity. Qed.

Lemma ui_bind_assoc {A B C} (m : ui A) (k : A -> ui B) (h : B -> ui C) tr :
  ui_bind (ui_bind m k) h tr = ui_bind m (fun a => ui_bind (k a) h) tr.
Proof. unfold ui_bind. by destruct (m tr) as [tr' [a|e]]. Qed.

Lemma framed_ret {A} (a : A) : framed (ui_ret a).
Proof. intros tr. unfold ui_ret. simpl. by rewrite app_nil_r. Qed.

Lemma framed_emit ev : framed (emit ev).
Proof. intros tr. reflexivity. Qed.

Lemma framed_lift {A} (r : result A) : framed (ui_lift r).
Proof. intros tr. unfold ui_lift. simpl. by rewrite app_nil_r. Qed.

Lemma framed_bind {A B} (m : ui A) (k : A -> ui B) :
  framed m -> (forall a, framed (k a)) -> framed (ui_bind m k).
Proof.
  intros Hm Hk tr. unfold ui_bind. rewrite (Hm tr), (Hm []). simpl.
  destruct (m []) as [t0 [a|e]]; simpl; [|done].
  rewrite (Hk a (tr ++ t0)), (Hk a t0). simpl. by rewrite app_assoc.
Qed.

Create HintDb ui discriminated.
#[export] Hint Resolve framed_ret framed_emit framed_lift framed_bind : ui.

Lemma texts_app t1 t2 : texts (t1 ++ t2) = texts t1 ++ texts t2.
Proof. apply omap_app. Qed.

Lemma texts_emit tr ev :
  texts (tr ++ [ev]) = texts tr ++ match ev with Text s => [s] | _ => [] end.
Proof. rewrite texts_app. by destruct ev. Qed.

Lemma quiet_ret {A} (a : A) : quiet (ui_ret a).
Proof. split; [apply framed_ret|done]. Qed.

Lemma quiet_lift {A} (r : result A) : quiet (ui_lift r).
Proof. split; [apply framed_lift|done]. Qed.

Lemma quiet_emit ev : is_text ev = false -> quiet (emit ev).
Proof. intros H. split; [apply framed_emit|]. by destruct ev. Qed.

Lemma quiet_bind {A B} (m : ui A) (k : A -> ui B) :
  quiet m -> (forall a, quiet (k a)) -> quiet (ui_bind m k).
Proof.
  intros [Fm Tm] Hk. split; [apply framed_bind; [done|intros a; apply Hk]|].
  unfold ui_bind. destruct (m []) as [t [a|e]] eqn:E; simpl in *; [|done].
  destruct (Hk a) as [Fk Tk]. rewrite (Fk t). simpl. by rewrite texts_app, Tm, Tk.
Qed.

(** A quiet computation only appends events that are not text blocks. *)
Lemma quiet_texts {A} (m : ui A) tr :
  quiet m -> exists d, fst (m tr) = tr ++ d /\ texts d = [].
Proof. intros [F T]. exists (fst (m [])). by rewrite (F tr). Qed.

#[export] Hint Resolve quiet_ret quiet_lift quiet_bind : ui.
#[export] Hint Extern 1 (quiet (emit _)) => apply quiet_emit; reflexivity : ui.

(** Running [m ;; k]: the trace of [m], then that of [k]. *)
Lemma run_bind {A B} (m : ui A) (k : A -> ui B) :
  framed m -> (forall a, framed (k a)) ->
  run (ui_bind m k) =
  match run m with
  | (t, Ok a) => (t ++ fst (run (k a)), snd (run (k a)))
  | (t, Err e) => (t, Err e)
  end.
Proof.
  intros _ Hk. unfold run, ui_bind. destruct (m []) as [t [a|e]]; [|done].
  apply Hk.
Qed.

End Streamlit.
