(* ===== verification/Capture.v ===== *)
(** * Audio capture and the file paths of [main]

    main.py 19-58 and the temporary-file suffix of lines 168 and 185.
    [record_audio] writes ["Recording audio..."], reads
    [int(rate / chunk * record_seconds)] buffers of [chunk] frames from the
    microphone (an external collaborator, the type class [Microphone]:
    opening the stream and each read may raise) and writes them as one
    WAV file; the count is computed in
    binary64 as Python does, with Stdlib's [SpecFloat].  [preprocess_audio]
    decodes its file and exports the normalised audio to
    ["normalized_" + basename(path)] in the working directory, and
    [extract_audio_from_video] always writes ["extracted_audio.wav"]; pydub
    and moviepy are the collaborator [MediaIO], each of whose calls may
    raise, and a video without an audio track raises [AttributeError] at
    line 57.  The audio content (pydub's [normalize], moviepy's decoding)
    is opaque: only the paths, the files read and written, and the
    exceptions are modelled. *)

From S2P Require Import Prelude Chunking Bullets Streamlit.
From Stdlib Require Import Floats.SpecFloat.

Module Capture.
Import Chunking Bullets Streamlit.
Local Open Scope ui_scope.

(** ** [record_audio] *)

(** PyAudio's sample formats and [p.get_sample_size(format)] (bytes per
    sample). *)
Inductive pa_format := paFloat32 | paInt32 | paInt24 | paInt16 | paInt8 | paUInt8.

Definition get_sample_size (format : pa_format) : Z :=
  match format with
  | paFloat32 | paInt32 => 4
  | paInt24 => 3
  | paInt16 => 2
  | paInt8 | paUInt8 => 1
  end.

(** *** Python floats

    A Python [float] is an IEEE 754 binary64 number: Stdlib's [spec_float]
    at precision 53 and maximal exponent 1024, with round-to-nearest-even
    ([binary_normalize], [SFdiv], [SFmul] are Flocq's rounded operations,
    computable in Gallina). *)

Definition f_prec : Z := 53.
Definition f_emax : Z := 1024.

(** The integer [z] as the unrounded binary number [z * 2^0]. *)
Definition exact_of_Z (z : Z) : spec_float :=
  match z with
  | Z0 => S754_zero false
  | Zpos p => S754_finite false p 0
  | Zneg p => S754_finite true p 0
  end.

(** [float(z)] of an [int], as [float * int] converts its right operand:
    rounded to nearest, and [OverflowError] beyond the largest float. *)
Definition float_of_int (z : Z) : result spec_float :=
  match binary_normalize f_prec f_emax z 0 false with
  | S754_infinity _ => Err (OverflowError (str "int too large to convert to float"))
  | f => Ok f
  end.

(** [a / b] on two [int]s: the correctly rounded quotient, [ZeroDivisionError]
    for a zero divisor and [OverflowError] beyond the largest float. *)
Definition int_truediv (a b : Z) : result spec_float :=
  if (b =? 0)%Z then Err (ZeroDivisionError (str "division by zero"))
  else match SFdiv f_prec f_emax (exact_of_Z a) (exact_of_Z b) with
       | S754_infinity _ => Err (OverflowError (str "integer division result too large for a float"))
       | f => Ok f
       end.

(** [x * z] for a float [x] and an int [z]; an overflowing product is an
    infinity, not an exception. *)
Definition float_mul_int (x : spec_float) (z : Z) : result spec_float :=
  bind (float_of_int z) (fun y => Ok (SFmul f_prec f_emax x y)).

(** [int(x)] of a float: truncation toward zero ([m * 2^e] with a
    negative [e] is a right shift of the magnitude). *)
Definition float_trunc (x : spec_float) : result Z :=
  match x with
  | S754_zero _ => Ok 0%Z
  | S754_finite s m e =>
      let a := Z.shiftl (Zpos m) e in Ok (if s then (- a)%Z else a)
  | S754_infinity _ => Err (OverflowError (str "cannot convert float infinity to integer"))
  | S754_nan => Err (ValueError (str "cannot convert float NaN to integer"))
  end.

(** Line 30: [int(rate / chunk * record_seconds)]. *)
Definition frames_count (rate chunk record_seconds : Z) : result Z :=
  bind (int_truediv rate chunk) (fun q =>
  bind (float_mul_int q record_seconds) float_trunc).

(** PyAudio, the external collaborator of lines 20-32. *)
Class Microphone := {
  (** [p.open(format=format, channels=channels, rate=rate, input=True,
      frames_per_buffer=chunk)] (lines 21-25), which raises when no
      input device can be opened with these parameters. *)
  stream_open : pa_format -> Z -> Z -> Z -> result unit;
  (** [stream.read(chunk)], the [n]-th read of the recording. *)
  stream_read : nat -> Z -> result (list Byte.byte)
}.

Section Record.
Context `{Microphone}.

(** Lines 28-32: [frames.append(stream.read(chunk))] once per index; a
    read that raises leaves the loop. *)
Definition read_frames (idx : list Z) (chunk : Z) : result (list (list Byte.byte)) :=
  fold_left (fun acc _ => bind acc (fun frames =>
    bind (stream_read (length frames) chunk) (fun data => Ok (frames ++ [data])))) idx (Ok []).

(** Lines 19-43: the stream is opened before anything is shown; closing
    it and writing the WAV file do not fail. *)
Definition record_audio (filename : pystr) (record_seconds chunk : Z) (format : pa_format)
    (channels rate : Z) : ui unit :=
  ui_lift (stream_open format channels rate chunk) ;;;
  emit (Write (str "Recording audio...")) ;;;
  n <<- ui_lift (frames_count rate chunk record_seconds) ;;
  idx <<- ui_lift (py_range 0 n 1) ;;
  frames <<- ui_lift (read_frames idx chunk) ;;
  emit (SaveWav filename channels (get_sample_size format) rate (concat frames)).

End Record.

(** The defaults of line 19 that [main] keeps. *)
Definition default_chunk : Z := 1024.
Definition default_channels : Z := 1.
Definition default_rate : Z := 16000.

(** ** Paths *)

(** The text after the last [c], or all of [s] when it has none. *)
Fixpoint after_last (c : ascii) (s : pystr) : pystr :=
  match s with
  | [] => []
  | x :: r =>
      if existsb (Ascii.eqb c) r then after_last c r
      else if Ascii.eqb x c then r else s
  end.

(** [os.path.basename(p)], i.e. [p[p.rfind('/') + 1:]]. *)
Definition basename (p : pystr) : pystr := after_last "/"%char p.

(** pydub and moviepy, the external collaborators of lines 47-57, each
    call answering or raising. *)
Class MediaIO := {
  (** [AudioSegment.from_file(path)] (line 47): decodes the file with ffmpeg. *)
  audio_from_file : pystr -> result unit;
  (** [normalized_audio.export(path, format="wav")] (line 50). *)
  audio_export : pystr -> result unit;
  (** [VideoFileClip(path)] (line 55), answering whether its [.audio] is
      not [None], i.e. whether the video has an audio track. *)
  video_file_clip : pystr -> result bool;
  (** [audio.write_audiofile(path)] (line 57). *)
  write_audiofile : pystr -> result unit
}.

Definition extracted_audio : pystr := str "extracted_audio.wav".

Section Media.
Context `{MediaIO}.

(** Lines 46-51: the decoding reads the file, the export writes the
    normalised audio; [normalize] (line 48) is pure. *)
Definition preprocess_audio (file_path : pystr) : ui pystr :=
  ui_lift (audio_from_file file_path) ;;;
  emit (ReadAudio file_path) ;;;
  let processed_path := str "normalized_" ++ basename file_path in
  ui_lift (audio_export processed_path) ;;;
  emit (WriteAudio processed_path) ;;;
  ui_ret processed_path.

(** Lines 54-58: a video without an audio track makes [video.audio]
    [None], and line 57 raises [AttributeError] on it. *)
Definition extract_audio_from_video (video_file : pystr) : ui pystr :=
  has_audio <<- ui_lift (video_file_clip video_file) ;;
  emit (ReadAudio video_file) ;;;
  if has_audio then
    ui_lift (write_audiofile extracted_audio) ;;;
    emit (WriteAudio extracted_audio) ;;;
    ui_ret extracted_audio
  else ui_lift (Err (AttributeError (str "'NoneType' object has no attribute 'write_audiofile'"))).

End Media.

(** [xs[i]], negative indices counting from the end. *)
Definition py_getitem {A} (xs : list A) (i : Z) : result A :=
  let j := if (i <? 0)%Z then (Z.of_nat (length xs) + i)%Z else i in
  match (if (0 <=? j)%Z then xs !! Z.to_nat j else None) with
  | Some x => Ok x
  | None => Err (IndexError (str "list index out of range"))
  end.

(** Lines 168 and 185: ['.' + uploaded_file.name.split('.')[-1]]. *)
Definition upload_suffix (name : pystr) : result pystr :=
  bind (py_split (str ".") name) (fun parts =>
  bind (py_getitem parts (-1)) (fun ext =>
  Ok (str "." ++ ext))).

(** ** Lemmas *)

(** The slider of line 173 gives [5 <= record_seconds <= 60]; on that
    range, with the defaults, the binary64 computation of line 30 is the
    integer quotient: [16000 / 1024 = 15.625] and its products with these
    integers are exact.  Checked at each of the 56 values. *)
Lemma frames_count_defaults s :
  (5 <= s <= 60)%Z -> frames_count default_rate default_chunk s = Ok (default_rate * s / default_chunk)%Z.
Proof.
  intros Hs.
  assert (Hall : forallb (fun s => match frames_count default_rate default_chunk s with
                                   | Ok n => (n =? default_rate * s / default_chunk)%Z
                                   | Err _ => false
                                   end) (map Z.of_nat (seq 5 56)) = true) by (vm_compute; reflexivity).
  rewrite forallb_forall in Hall.
  specialize (Hall s ltac:(apply in_map_iff; exists (Z.to_nat s); split; [lia|apply in_seq; lia])).
  destruct (frames_count _ _ s); [|discriminate]. by apply Z.eqb_eq in Hall as ->.
Qed.

Lemma py_range_upto n :
  (0 <= n)%Z -> exists idx, py_range 0 n 1 = Ok idx /\ length idx = Z.to_nat n.
Proof.
  intros Hn. unfold py_range. simpl. eexists. split; [reflexivity|].
  rewrite length_map, length_seq. unfold range_len. simpl.
  destruct (Z.ltb_spec 0 n); [rewrite Z.div_1_r; f_equal; lia|lia].
Qed.

Section Reads.
Context `{Microphone} (data : nat -> list Byte.byte) (chunk : Z).
Hypothesis Hreads : forall i, stream_read i chunk = Ok (data i).

Lemma read_frames_acc (idx : list Z) acc :
  fold_left (fun acc _ => bind acc (fun frames =>
    bind (stream_read (length frames) chunk) (fun d => Ok (frames ++ [d])))) idx (Ok acc) =
  Ok (acc ++ map data (seq (length acc) (length idx))).
Proof.
  revert acc. induction idx as [|j idx IH]; intros acc; simpl; [by rewrite app_nil_r|].
  rewrite Hreads. simpl. rewrite IH, length_app, <- app_assoc. simpl. by rewrite Nat.add_1_r.
Qed.

(** When every read answers, the frames are those reads in order. *)
Lemma read_frames_spec idx : read_frames idx chunk = Ok (map data (seq 0 (length idx))).
Proof. unfold read_frames. by rewrite read_frames_acc. Qed.

End Reads.

Lemma after_last_split c s :
  exists d, s = d ++ after_last c s /\ (d = [] \/ last d = Some c) /\ c ∉ after_last c s.
Proof.
  induction s as [|x r IH]; simpl.
  - exists []. split; [done|]. split; [by left|]. apply not_elem_of_nil.
  - destruct (existsb (Ascii.eqb c) r) eqn:E.
    + destruct IH as (d & Hd & Hl & Hn). exists (x :: d). split; [by rewrite Hd at 1|].
      split; [|done]. right. destruct Hl as [->|Hl].
      * exfalso. apply Hn. simpl in Hd. rewrite <- Hd, list_elem_of_In.
        apply existsb_exists in E as (y & Hy & Hy'). by apply Ascii.eqb_eq in Hy' as ->.
      * destruct d; [done|]. exact Hl.
    + assert (Hr : c ∉ r).
      { rewrite list_elem_of_In. intros Hin. apply not_true_iff_false in E. apply E.
        apply existsb_exists. exists c. split; [done|]. apply Ascii.eqb_refl. }
      destruct (Ascii.eqb_spec x c) as [->|Hx].
      * exists [c]. split; [done|]. split; [by right|done].
      * exists []. split; [done|]. split; [by left|].
        rewrite elem_of_cons. intros [->|]; [done|contradiction].
Qed.

Lemma preprocess_audio_quiet `{MediaIO} p : quiet (preprocess_audio p).
Proof. unfold preprocess_audio. auto 20 with ui. Qed.

Lemma extract_audio_from_video_quiet `{MediaIO} v : quiet (extract_audio_from_video v).
Proof. unfold extract_audio_from_video. apply quiet_bind; [auto with ui|]. intros []; auto 20 with ui. Qed.

(** The last element of a non-empty list, and the list before it. *)
Lemma py_getitem_last {A} (xs : list A) :
  xs <> [] -> exists pre x, xs = pre ++ [x] /\ py_getitem xs (-1) = Ok x.
Proof.
  intros Hxs. destruct (exists_last Hxs) as (pre & x & ->).
  exists pre, x. split; [done|]. unfold py_getitem. simpl. rewrite length_app. simpl.
  replace (Z.of_nat (length pre + 1) + -1)%Z with (Z.of_nat (length pre)) by lia.
  rewrite (proj2 (Z.leb_le 0 _)) by lia. rewrite Nat2Z.id.
  by rewrite lookup_app_r, Nat.sub_diag by lia.
Qed.

(** [upload_suffix] never raises: the split has a piece and [[-1]] is it. *)
Lemma upload_suffix_ok (name : pystr) : exists sfx, upload_suffix name = Ok sfx.
Proof.
  assert (Hne : py_split_fuel (S (length name)) (str ".") name <> []) by apply py_split_fuel_nonempty.
  destruct (py_getitem_last _ Hne) as (pre & x & _ & Hg).
  exists (str "." ++ x). unfold upload_suffix, py_split. change (str ".") with ["."%char] in *.
  cbn [bind]. by rewrite Hg.
Qed.

(** ** Properties *)

(** C27: The recording [main] makes (line 177: the defaults of line 19
    and the slider's [5 <= record_seconds <= 60]), from a microphone that
    opens and answers every read, reads [n] buffers of 1024 frames where
    [n] is the largest count with
    [n * 1024 <= 16000 * record_seconds]: the binary64 computation of
    line 30 loses no buffer, the recording falls short of the requested
    duration by less than one buffer, and the file holds exactly those [n]
    reads in order. *)
Theorem record_audio_frames_bounds `{Microphone} filename record_seconds
    (data : nat -> list Byte.byte) :
  (5 <= record_seconds <= 60)%Z ->
  stream_open paInt16 default_channels default_rate default_chunk = Ok tt ->
  (forall i, stream_read i default_chunk = Ok (data i)) ->
  exists n : nat,
    run (record_audio filename record_seconds default_chunk paInt16 default_channels default_rate) =
      ([Write (str "Recording audio...");
        SaveWav filename default_channels (get_sample_size paInt16) default_rate
          (concat (map data (seq 0 n)))], Ok tt) /\
    (Z.of_nat n * default_chunk <= default_rate * record_seconds
       < Z.of_nat n * default_chunk + default_chunk)%Z.
Proof.
  intros Hs Ho Hr.
  set (q := (default_rate * record_seconds / default_chunk)%Z).
  assert (Hq : (0 <= q)%Z) by (apply Z.div_pos; unfold default_rate, default_chunk; lia).
  destruct (py_range_upto q Hq) as (idx & Hidx & Hlen).
  exists (Z.to_nat q). split.
  - unfold run, record_audio. cbn [ui_bind ui_lift]. rewrite Ho.
    rewrite frames_count_defaults by done. fold q.
    cbn [ui_bind emit ui_lift app]. rewrite Hidx. cbn [ui_bind emit ui_lift app].
    by rewrite (read_frames_spec data _ Hr), Hlen.
  - rewrite Z2Nat.id by done. unfold q, default_rate, default_chunk in *. zlia.
Qed.

Lemma record_audio_frames_bounds_witness :
  let mic := {| stream_open := fun _ _ _ _ => Ok tt;
                stream_read := fun _ c => Ok (repeat Byte.x00 (Z.to_nat (2 * c))) |} in
  exists n : nat,
    run (@record_audio mic (str "rec.wav") 30 default_chunk paInt16 default_channels default_rate) =
      ([Write (str "Recording audio...");
        SaveWav (str "rec.wav") default_channels (get_sample_size paInt16) default_rate
          (concat (map (fun _ => repeat Byte.x00 (Z.to_nat (2 * default_chunk))) (seq 0 n)))], Ok tt) /\
    (Z.of_nat n * default_chunk <= default_rate * 30 < Z.of_nat n * default_chunk + default_chunk)%Z.
Proof.
  intros mic. apply (@record_audio_frames_bounds mic); [lia|reflexivity|reflexivity].
Defined.

(** At the defaults, 30 seconds give 468 reads: 479232 of the 480000
    frames asked for. *)
Example record_audio_thirty_seconds :
  frames_count default_rate default_chunk 30 = Ok 468%Z.
Proof. vm_compute. reflexivity. Qed.

(** Outside [main]'s arguments the float computation drops buffers:
    [1 / 49] rounds down and [1 / 49 * 49] is [0.9999999999999999], so
    [record_audio(f, record_seconds=49, chunk=49, rate=1)] reads no
    buffer although [49 * 1 = 49] frames fill one. *)
Example frames_count_rounding_loss : frames_count 1 49 49 = Ok 0%Z.
Proof. vm_compute. reflexivity. Qed.

(** A zero [chunk] raises at line 30. *)
Example frames_count_zero_chunk :
  frames_count default_rate 0 30 = Err (ZeroDivisionError (str "division by zero")).
Proof. reflexivity. Qed.

(** C28: [preprocess_audio] decodes [file_path] and exports the
    normalised audio to ["normalized_" + b], where [b] is the last
    component of [file_path] ([file_path = d ++ b] with [d] empty or ending
    in ['/'], and [b] free of ['/']), and returns that path; a decoding
    failure raises before anything is read, an export failure raises after
    the file was read and before anything is written. *)
Theorem preprocess_audio_path `{MediaIO} (file_path : pystr) :
  exists d b,
    file_path = d ++ b /\ (d = [] \/ last d = Some "/"%char) /\ ("/"%char ∉ b) /\
    run (preprocess_audio file_path) =
      match audio_from_file file_path with
      | Err e => ([], Err e)
      | Ok _ =>
          match audio_export (str "normalized_" ++ b) with
          | Err e => ([ReadAudio file_path], Err e)
          | Ok _ => ([ReadAudio file_path; WriteAudio (str "normalized_" ++ b)],
                     Ok (str "normalized_" ++ b))
          end
      end.
Proof.
  destruct (after_last_split "/"%char file_path) as (d & Hd & Hl & Hn).
  exists d, (basename file_path). do 3 (split; [done|]).
  unfold run, preprocess_audio, ui_bind, ui_lift, emit, ui_ret.
  destruct (audio_from_file file_path); [|reflexivity].
  by destruct (audio_export _).
Qed.

(** Shared output files: two uploads with the same name in different
    directories are exported to the same file of the working directory,
    and so is the audio of every video. *)
Example preprocess_audio_shared_path :
  basename (str "/tmp/a/clip.wav") = basename (str "/tmp/b/clip.wav").
Proof. reflexivity. Qed.

(** C20: The temporary file of an upload gets the suffix ['.'] followed by
    the text after the last ['.'] of the uploaded name, which has no
    ['.']; a name without a ['.'] becomes the whole suffix. *)
Theorem upload_suffix_spec (name : pystr) :
  exists ext, upload_suffix name = Ok ("."%char :: ext) /\ ("."%char ∉ ext) /\
    (name = ext \/ exists pre, name = pre ++ ("."%char :: ext)).
Proof.
  destruct (py_split_roundtrip (str ".") name) as (parts & Hs & Hj & Hp); [discriminate|].
  assert (Hne : parts <> []) by (intros ->; simpl in Hj; subst name; discriminate Hs).
  destruct (py_getitem_last parts Hne) as (pre & ext & -> & Hg).
  exists ext. unfold upload_suffix. rewrite Hs. simpl. rewrite Hg. split; [done|].
  apply Forall_app in Hp as [_ Hp]. inversion Hp as [|? ? Hext _]; subst.
  split; [by apply find_sep_single|].
  destruct pre as [|p pre']; [by left|]. right. exists (py_join (str ".") (p :: pre')).
  rewrite py_join_app; [done|discriminate|discriminate].
Qed.

(** A name without an extension gives a suffix made of the whole name. *)
Example upload_suffix_no_dot : upload_suffix (str "recording") = Ok (str ".recording").
Proof. vm_compute. reflexivity. Qed.

End Capture.
