(* ===== verification/Models.v ===== *)
(** * The speech models around the transcript renderers

    main.py 61-66, 78-82, 102-121 and 125-126.  faster-whisper's [WhisperModel] and
    pyannote's [Pipeline] are external collaborators, stated as type
    classes: [SpeechRecognizer] loads a model with the keyword arguments
    the code passes and transcribes a file; [DiarizationPipeline] loads a
    pretrained checkpoint and applies it to a file; [HFPipelines] loads
    the summarisation pipeline of [summarize_text].  [model.transcribe]
    detects the language at once and returns the segments as a lazy
    generator, so its result is the outcome of iterating the segments
    together with the language [info]: the iteration can raise on its
    own, after the [print] of line 114 has run.  [torch.cuda.is_available()] is the
    class [Torch]. *)

From S2P Require Import Prelude Diarization Alignment PyFormat Transcript Chunking Summarizer Streamlit.

Module Models.
Import Diarization Alignment PyFormat Transcript Summarizer Streamlit.
Local Open Scope ui_scope.

(** [info] of [model.transcribe]. *)
Record transcription_info := mkInfo {
  language : pystr;
  language_probability : Q
}.

(** The keyword arguments of [WhisperModel(...)]; [None] is an argument
    left at the library's default. *)
Record model_options := mkModelOptions {
  model_size : pystr;
  device : option pystr;
  compute_type : option pystr
}.

(** The keyword arguments of [model.transcribe(...)]. *)
Record transcribe_options := mkTranscribeOptions {
  beam_size : option Z;
  vad_filter : option bool
}.

Class SpeechRecognizer := {
  whisper_transcribe :
    model_options -> pystr -> transcribe_options ->
    result (result (list segment) * transcription_info)
}.

Class DiarizationPipeline := {
  from_pretrained : pystr -> result (pystr -> result (list track))
}.

Class Torch := {
  cuda_is_available : bool
}.

(** [transformers.pipeline(task, model=..., device=...)]: the loaded
    pipeline, or the exception raised while loading it. *)
Class HFPipelines := {
  hf_pipeline : pystr -> pystr -> Z -> result SummarizationPipeline
}.

Definition diarization_checkpoint : pystr := str "pyannote/speaker-diarization-3.1".

Section Models.
Context `{SpeechRecognizer} `{DiarizationPipeline} `{Torch} `{HFPipelines}.

(** Lines 61-66 (the access token of line 64 is part of the loading). *)
Definition diarize_audio (file_path : pystr) : result (list track) :=
  bind (from_pretrained diarization_checkpoint) (fun pipeline =>
  pipeline file_path).

(** Lines 78-99: ["medium"] with the library's device and compute type,
    voice-activity filtering on, then the loop of [transcribe_with_speaker]. *)
Definition transcribe_with_speaker_file (file_path : pystr) (diarization : list track) :
    result pystr :=
  bind (whisper_transcribe (mkModelOptions (str "medium") None None) file_path
          (mkTranscribeOptions None (Some true))) (fun '(segments, _) =>
  bind segments (fun segments =>
  Ok (transcribe_with_speaker segments diarization))).

(** Line 106. *)
Definition select_device : pystr := if cuda_is_available then str "cuda" else str "cpu".

(** Line 107. *)
Definition select_compute_type (device : pystr) : pystr :=
  if bool_decide (device = str "cuda") then str "float16" else str "int8".

(** Line 114: ["Detected language '%s' with probability %f"]. *)
Definition language_line (info : transcription_info) : pystr :=
  str "Detected language '" ++ language info ++ str "' with probability "
    ++ format_fixed 6 (language_probability info).

(** Lines 103-109: [WhisperModel(model_size, device=device,
    compute_type=compute_type)]. *)
Definition whisper_options : model_options :=
  let model_size := str "large-v3" in
  let device := select_device in
  let compute_type := select_compute_type device in
  mkModelOptions model_size (Some device) (Some compute_type).

(** Line 112: [beam_size=5]. *)
Definition whisper_beam : transcribe_options := mkTranscribeOptions (Some 5%Z) None.

(** Lines 102-121. *)
Definition transcribe_audio_file (file_path : pystr) : ui pystr :=
  r <<- ui_lift (whisper_transcribe whisper_options file_path whisper_beam) ;;
  let '(segments, info) := r in
  emit (Stdout (language_line info)) ;;;
  segments <<- ui_lift segments ;;
  ui_ret (transcribe_audio segments).

(** Line 125: [0 if torch.cuda.is_available() else -1]. *)
Definition summarization_device : Z := if cuda_is_available then 0%Z else (-1)%Z.

(** Lines 124-140 with the loading of lines 125-126: the pipeline is
    loaded before the text is split, then [Summarizer.summarize_text]
    runs against it. *)
Definition summarize_text_loaded (input_text : pystr) : result pystr :=
  bind (hf_pipeline (str "summarization") (str "facebook/bart-large-cnn") summarization_device)
    (fun summarizer => @summarize_text summarizer input_text).

End Models.

End Models.
