(* ===== verification/App.v ===== *)
(** * The Streamlit script [main]

    main.py 156-205.  One run of the script: the title and the option
    selector, then one of three branches that produces a file path (an
    upload saved to a named temporary file, a recording, or the audio
    extracted from an uploaded video), then, when the path is truthy, the
    preprocessing, the transcription shown with [st.text], and the bullet
    summary shown after it.  What the user has chosen on the page is the
    input [ui_input]; [tempfile.NamedTemporaryFile] is the collaborator
    [TempFiles].

    [main] is the composition of the code's blocks.  The same blocks, run
    one per step, form the phase machine [step]: the program counter of
    the script at the granularity of its blocks.  [main_machine_refines]
    shows that the machine's final configuration is exactly the outcome of
    [main], so the page invariant proved by induction over the machine's
    runs speaks about the pages [main] shows.  pydub and moviepy are the
    collaborator [MediaIO] of [Capture]. *)

From S2P Require Import Prelude Diarization Alignment PyFormat Transcript Chunking.
From S2P Require Import Summarizer Cleaner Bullets Streamlit Capture Models.

Module App.
Import PyFormat Transcript Summarizer Bullets Streamlit Capture Models.
Local Open Scope ui_scope.

(** [st.file_uploader]'s answer: the file's name and its bytes. *)
Record uploaded_file := mkUpload {
  up_name : pystr;
  up_buffer : list Byte.byte
}.

(** What the widgets return in this run. *)
Record ui_input := mkInput {
  selected : pystr;                 (** [st.selectbox] *)
  uploaded : option uploaded_file;  (** [st.file_uploader] *)
  slider_value : Z;                 (** [st.slider] *)
  button_pressed : bool             (** [st.button] *)
}.

(** [tempfile.NamedTemporaryFile(delete=False, suffix=suffix).name]: a
    fresh name drawn at random in the temporary directory, ending in
    [suffix].  A run calls it once, so an instance is the name that run's
    call draws; the theorems hold for every instance, and concurrent
    sessions ([Session]) each have their own. *)
Class TempFiles := {
  named_temporary_file : pystr -> pystr
}.

(** [str(n)] of a Python [int]. *)
Definition py_str_int (n : Z) : pystr :=
  if (n <? 0)%Z then str "-" ++ digits (- n) else digits n.

Definition nl (s : string) : pystr := [Transcript.newline] ++ str s.

Section Main.
Context `{SpeechRecognizer} `{Torch} `{HFPipelines} `{Microphone} `{MediaIO} `{TempFiles}.

(** Lines 168-170 and 185-187: the upload written to a temporary file. *)
Definition save_upload (f : uploaded_file) : ui pystr :=
  suffix <<- ui_lift (upload_suffix (up_name f)) ;;
  let name := named_temporary_file suffix in
  emit (SaveFile name (up_buffer f)) ;;;
  ui_ret name.

(** Lines 157-160. *)
Definition main_header : ui unit :=
  emit (Title (str "Audio/Video Transcription and Summarization")) ;;;
  emit (Widget (str "Choose an option:")).

(** Lines 162-189: the value of [file_path] after the three branches. *)
Definition choose_file (inp : ui_input) : ui (option pystr) :=
  let option := selected inp in
  if bool_decide (option = str "Upload Audio") then
    emit (Widget (str "Upload an audio file")) ;;;
    match uploaded inp with
    | Some uploaded_file => tmp <<- save_upload uploaded_file ;; ui_ret (Some tmp)
    | None => ui_ret None
    end
  else if bool_decide (option = str "Record Audio") then
    emit (Widget (str "Select recording duration (seconds):")) ;;;
    let record_seconds := slider_value inp in
    emit (Widget (str "Start Recording")) ;;;
    if button_pressed inp then
      let tmp := named_temporary_file (str ".wav") in
      record_audio tmp record_seconds default_chunk paInt16 default_channels default_rate ;;;
      emit (Write (str "Recorded audio for " ++ py_str_int record_seconds ++ str " seconds.")) ;;;
      ui_ret (Some tmp)
    else ui_ret None
  else if bool_decide (option = str "Upload Video") then
    emit (Widget (str "Upload a video file")) ;;;
    match uploaded inp with
    | Some uploaded_file =>
        video_file_path <<- save_upload uploaded_file ;;
        file_path <<- extract_audio_from_video video_file_path ;;
        ui_ret (Some file_path)
    | None => ui_ret None
    end
  else ui_ret None.

(** Lines 196-199. *)
Definition transcription_step (processed_file_path : pystr) : ui pystr :=
  emit (Write (str "Transcribing audio...")) ;;;
  transcription <<- transcribe_audio_file processed_file_path ;;
  emit (Write (nl "### Transcription Before Summarization:")) ;;;
  emit (Text transcription) ;;;
  ui_ret transcription.

(** Lines 202-205: [summary_to_bullets(summarize_text(transcription))]. *)
Definition summary_step (transcription : pystr) : ui unit :=
  emit (Write (nl "Summarizing transcription...")) ;;;
  summary_bullets <<- ui_lift (bind (summarize_text_loaded transcription) summary_to_bullets) ;;
  emit (Write (nl "### Final Summary After Summarization:")) ;;;
  emit (Text summary_bullets).

(** Lines 191-205 for a path [p]: [if file_path:]. *)
Definition process_path (file_path : option pystr) : ui unit :=
  match file_path with
  | None | Some [] => ui_ret tt
  | Some p =>
      processed_file_path <<- preprocess_audio p ;;
      transcription <<- transcription_step processed_file_path ;;
      summary_step transcription
  end.

(** Lines 156-205. *)
Definition main (inp : ui_input) : ui unit :=
  main_header ;;;
  file_path <<- choose_file inp ;;
  process_path file_path.

(** ** The phase machine *)

Inductive phase :=
  | Start (inp : ui_input)
  | Chosen (file_path : option pystr)
  | Preprocessed (processed_file_path : pystr)
  | Transcribed (transcription : pystr)
  | Done
  | Failed (e : py_exc).

Definition final (ph : phase) : bool :=
  match ph with Done | Failed _ => true | _ => false end.

(** The block the script runs in each phase. *)
Definition phase_action (ph : phase) : ui phase :=
  match ph with
  | Start inp => main_header ;;; file_path <<- choose_file inp ;; ui_ret (Chosen file_path)
  | Chosen (None | Some []) => ui_ret Done
  | Chosen (Some p) => q <<- preprocess_audio p ;; ui_ret (Preprocessed q)
  | Preprocessed q => t <<- transcription_step q ;; ui_ret (Transcribed t)
  | Transcribed t => summary_step t ;;; ui_ret Done
  | Done | Failed _ => ui_ret ph
  end.

Definition config : Type := phase * list event.

Inductive step : config -> config -> Prop :=
  | step_ok ph tr ph' tr' :
      final ph = false -> phase_action ph tr = (tr', Ok ph') -> step (ph, tr) (ph', tr')
  | step_raise ph tr e tr' :
      final ph = false -> phase_action ph tr = (tr', Err e) -> step (ph, tr) (Failed e, tr').

Inductive star : config -> config -> Prop :=
  | star_refl c : star c c
  | star_step c1 c2 c3 : step c1 c2 -> star c2 c3 -> star c1 c3.

(** What remains of [main] to run in each phase. *)
Definition rest (ph : phase) : ui unit :=
  match ph with
  | Start inp => main inp
  | Chosen file_path => process_path file_path
  | Preprocessed q => transcription <<- transcription_step q ;; summary_step transcription
  | Transcribed t => summary_step t
  | Done => ui_ret tt
  | Failed e => ui_lift (Err e)
  end.

Definition rank (ph : phase) : nat :=
  match ph with
  | Start _ => 4 | Chosen _ => 3 | Preprocessed _ => 2 | Transcribed _ => 1
  | Done | Failed _ => 0
  end.

(** What the two steps of [main] put on the page. *)
Definition header_events : list event :=
  [Title (str "Audio/Video Transcription and Summarization"); Widget (str "Choose an option:")].

Definition shown_bullets (transcription : pystr) : result pystr :=
  bind (summarize_text_loaded transcription) summary_to_bullets.

(** The page in each phase: the header first, and as text blocks nothing,
    the transcription alone, or the transcription followed by the bullets
    of exactly that transcription. *)
Definition page_ok (c : config) : Prop :=
  let '(ph, tr) := c in
  match ph with
  | Start _ => tr = []
  | Chosen _ | Preprocessed _ => take 2 tr = header_events /\ texts tr = []
  | Transcribed t => take 2 tr = header_events /\ texts tr = [t]
  | Done => take 2 tr = header_events /\
      (texts tr = [] \/ exists t b, texts tr = [t; b] /\ shown_bullets t = Ok b)
  | Failed _ => take 2 tr = header_events /\ (texts tr = [] \/ exists t, texts tr = [t])
  end.

End Main.

(** ** Test doubles *)

(** A recogniser that hears ["hi"] in English, a summariser that answers
    an empty list, no CUDA, a silent microphone, a media library that
    decodes and writes every file, and a fixed temporary name. *)
Definition hi_recognizer : SpeechRecognizer := {|
  whisper_transcribe := fun _ _ _ =>
    Ok (Ok [Alignment.mkSegment 0 1 (str "hi")], mkInfo (str "en") (9 # 10))
|}.
Definition empty_summarizer : SummarizationPipeline := {| summarizer := fun _ _ _ _ => Ok [] |}.
Definition empty_loader : HFPipelines := {| hf_pipeline := fun _ _ _ => Ok empty_summarizer |}.
Definition no_cuda : Torch := {| cuda_is_available := false |}.
Definition silent_mic : Microphone := {|
  stream_open := fun _ _ _ _ => Ok tt; stream_read := fun _ c => Ok (repeat Byte.x00 (Z.to_nat (2 * c)))
|}.
Definition all_media : MediaIO := {|
  audio_from_file := fun _ => Ok tt; audio_export := fun _ => Ok tt;
  video_file_clip := fun _ => Ok true; write_audiofile := fun _ => Ok tt
|}.
Definition silent_video_media : MediaIO := {|
  audio_from_file := fun _ => Ok tt; audio_export := fun _ => Ok tt;
  video_file_clip := fun _ => Ok false; write_audiofile := fun _ => Ok tt
|}.
Definition tmp_files : TempFiles := {| named_temporary_file := fun suffix => str "/tmp/tmpab" ++ suffix |}.
Definition upload_talk : ui_input :=
  mkInput (str "Upload Audio") (Some (mkUpload (str "talk.mp3") [])) 30 false.

(** The configuration the machine ends in on [upload_talk], as [main]
    computes it. *)
Definition talk_end : config :=
  let '(tr, r) := @run _ (@main hi_recognizer no_cuda empty_loader silent_mic all_media tmp_files upload_talk) in
  (match r with Ok _ => Done | Err e => Failed e end, tr).

(** Runs the machine on a closed configuration, one block per step. *)
Ltac run_machine :=
  repeat (eapply star_step; [first [ eapply step_ok; [reflexivity|reflexivity]
                                   | eapply step_raise; [reflexivity|reflexivity] ]|]);
  vm_compute; apply star_refl.

(** ** Lemmas *)

Section Lemmas.
Context `{SpeechRecognizer} `{Torch} `{HFPipelines} `{Microphone} `{MediaIO} `{TempFiles}.

Lemma ui_bind_unfold {A B} (m : ui A) (k : A -> ui B) tr :
  ui_bind m k tr = match m tr with (tr', Ok a) => k a tr' | (tr', Err e) => (tr', Err e) end.
Proof. reflexivity. Qed.

(** Running a phase's block and then the rest of the new phase is
    running the rest of the old one. *)
Lemma phase_action_rest ph tr :
  final ph = false ->
  rest ph tr = match phase_action ph tr with
               | (tr', Ok ph') => rest ph' tr'
               | (tr', Err e) => (tr', Err e)
               end.
Proof.
  destruct ph as [inp|[[|c p]|]|q|t| |e]; intros Hf; try discriminate Hf;
    unfold rest, phase_action, main, process_path, ui_bind; cbv beta iota; try reflexivity.
  - destruct (main_header tr) as [t1 [[]|e1]]; [|reflexivity].
    by destruct (choose_file inp t1) as [t2 [fp|e2]].
  - by destruct (preprocess_audio (c :: p) tr) as [t1 [q|e1]].
  - by destruct (transcription_step q tr) as [t1 [t|e1]].
  - by destruct (summary_step t tr) as [t1 [[]|e1]].
Qed.

Lemma step_rank ph tr ph' tr' : step (ph, tr) (ph', tr') -> rank ph' < rank ph.
Proof.
  inversion 1 as [? ? ? ? Hf Ha|? ? ? ? Hf Ha]; subst;
    [|destruct ph; try discriminate Hf; simpl; lia].
  revert Ha. destruct ph as [inp|[[|c p]|]|q|t| |e]; try discriminate Hf;
    unfold phase_action, ui_bind, ui_ret; cbv beta iota;
    repeat match goal with |- context [let (_, _) := ?m in _] => destruct m as [? [?|?]] end;
    intros [=]; subst; simpl; lia.
Qed.

Lemma step_rest c c' : step c c' -> rest (fst c) (snd c) = rest (fst c') (snd c').
Proof.
  inversion 1 as [ph tr ph' tr' Hf Ha|ph tr e tr' Hf Ha]; subst; simpl;
    rewrite (phase_action_rest ph tr Hf), Ha; [done|]. reflexivity.
Qed.

Lemma star_rest c c' : star c c' -> rest (fst c) (snd c) = rest (fst c') (snd c').
Proof. induction 1 as [|c1 c2 c3 Hs _ IH]; [done|]. by rewrite (step_rest _ _ Hs). Qed.

Lemma final_rest ph tr :
  final ph = true -> rest ph tr = (tr, match ph with Failed e => Err e | _ => Ok tt end).
Proof. by destruct ph. Qed.

Lemma final_no_step ph tr c' : final ph = true -> ~ step (ph, tr) c'.
Proof. intros Hf Hs. inversion Hs; congruence. Qed.

(** A configuration that is not final always has a step. *)
Lemma progress ph tr : final ph = false -> exists c', step (ph, tr) c'.
Proof.
  intros Hf. destruct (phase_action ph tr) as [tr' [ph'|e]] eqn:E.
  - exists (ph', tr'). by constructor.
  - exists (Failed e, tr'). by apply step_raise.
Qed.

Lemma reaches_final ph tr :
  exists c, star (ph, tr) c /\ final (fst c) = true.
Proof.
  remember (rank ph) as n eqn:Hn. revert ph tr Hn.
  induction (lt_wf n) as [n _ IH]; intros ph tr ->.
  destruct (final ph) eqn:Hf; [exists (ph, tr); split; [constructor|done]|].
  destruct (progress ph tr Hf) as [[ph' tr'] Hs].
  destruct (IH (rank ph') (step_rank _ _ _ _ Hs) ph' tr' eq_refl) as (c & Hc & Hcf).
  exists c. split; [by econstructor|done].
Qed.

Lemma take_header tr d : take 2 tr = header_events -> take 2 (tr ++ d) = header_events.
Proof.
  intros Hh. rewrite take_app_le; [done|].
  assert (Hl : length (take 2 tr) = 2) by (rewrite Hh; reflexivity).
  rewrite length_take in Hl. lia.
Qed.

Lemma choose_file_quiet inp : quiet (choose_file inp).
Proof.
  unfold choose_file, save_upload, record_audio.
  repeat case_match; auto 20 using extract_audio_from_video_quiet with ui.
Qed.

Lemma transcribe_audio_file_quiet q : quiet (transcribe_audio_file q).
Proof. unfold transcribe_audio_file. apply quiet_bind; [auto with ui|]. intros [r info]. auto with ui. Qed.

Lemma transcription_step_texts q tr :
  exists d, fst (transcription_step q tr) = tr ++ d /\
    texts (fst (transcription_step q tr)) =
      texts tr ++ match snd (transcription_step q tr) with Ok t => [t] | Err _ => [] end.
Proof.
  unfold transcription_step, ui_bind, emit, ui_ret. cbv beta iota.
  destruct (quiet_texts _ (tr ++ [Write (str "Transcribing audio...")])
              (transcribe_audio_file_quiet q)) as (d & Hd & Ht).
  destruct (transcribe_audio_file q _) as [t1 [t|e]]; simpl in *; subst t1;
    rewrite <- !app_assoc; eexists; (split; [reflexivity|]);
    rewrite !texts_app, Ht; simpl; by rewrite ?app_nil_r.
Qed.

Lemma summary_step_texts t tr :
  exists d, fst (summary_step t tr) = tr ++ d /\
    match snd (summary_step t tr) with
    | Ok _ => exists b, shown_bullets t = Ok b /\ texts (fst (summary_step t tr)) = texts tr ++ [b]
    | Err _ => texts (fst (summary_step t tr)) = texts tr
    end.
Proof.
  unfold summary_step, shown_bullets, ui_bind, emit, ui_lift. cbv beta iota.
  destruct (bind (summarize_text_loaded t) summary_to_bullets) as [b|e]; simpl;
    rewrite <- ?app_assoc; eexists; (split; [reflexivity|]); [exists b; split; [done|]|];
    rewrite !texts_app; simpl; by rewrite ?app_nil_r.
Qed.

Lemma main_header_run tr : main_header tr = (tr ++ header_events, Ok tt).
Proof. unfold main_header, ui_bind, emit. simpl. by rewrite <- app_assoc. Qed.

(** The block of every phase that is not final keeps the page as
    [page_ok] describes it, on both outcomes. *)
Lemma phase_action_page ph tr :
  final ph = false -> page_ok (ph, tr) ->
  match phase_action ph tr with
  | (tr', Ok ph') => page_ok (ph', tr')
  | (tr', Err e) => page_ok (Failed e, tr')
  end.
Proof.
  destruct ph as [inp|[[|c p]|]|q|t| |e0]; intros Hf Hp; try discriminate Hf;
    simpl in Hp; unfold phase_action; rewrite ?ui_bind_unfold; cbn [ui_ret page_ok].
  - subst tr. rewrite main_header_run, app_nil_l. cbv beta iota. rewrite ui_bind_unfold.
    destruct (quiet_texts _ header_events (choose_file_quiet inp)) as (d & Hd & Ht).
    destruct (choose_file inp header_events) as [t1 [fp|e1]]; cbn [fst snd ui_ret page_ok] in Hd |- *; subst t1;
      (split; [by apply take_header|]); rewrite texts_app, Ht; [done|by left].
  - destruct Hp as [Hh Ht]. split; [done|by left].
  - destruct Hp as [Hh Ht].
    destruct (quiet_texts _ tr (preprocess_audio_quiet (c :: p))) as (d & Hd & Htx).
    destruct (preprocess_audio (c :: p) tr) as [t1 [q|e1]]; cbn [fst snd ui_ret page_ok] in Hd |- *; subst t1;
      (split; [by apply take_header|]); rewrite texts_app, Ht, Htx; [done|by left].
  - destruct Hp as [Hh Ht]. split; [done|by left].
  - destruct Hp as [Hh Ht].
    destruct (transcription_step_texts q tr) as (d & Hd & Htx).
    destruct (transcription_step q tr) as [t1 [t|e1]]; cbn [fst snd ui_ret page_ok] in Hd, Htx |- *; subst t1;
      (split; [by apply take_header|]); rewrite Htx, Ht; [done|by left].
  - destruct Hp as [Hh Ht].
    destruct (summary_step_texts t tr) as (d & Hd & Htx).
    destruct (summary_step t tr) as [t1 [[]|e1]]; cbn [fst snd ui_ret page_ok] in Hd, Htx |- *; subst t1;
      (split; [by apply take_header|]); right.
    + destruct Htx as (b & Hb & Htx). exists t, b. by rewrite Htx, Ht.
    + exists t. by rewrite Htx, Ht.
Qed.

(** Every step keeps the page as [page_ok] describes it. *)
Lemma step_page_ok c c' : step c c' -> page_ok c -> page_ok c'.
Proof.
  inversion 1 as [ph tr ph' tr' Hf Ha|ph tr e tr' Hf Ha]; subst; intros Hp;
    pose proof (phase_action_page ph tr Hf Hp) as Hpa; by rewrite Ha in Hpa.
Qed.

End Lemmas.

(** ** Properties *)

(** C21: The page invariant of [main]: in every configuration reachable
    from the start, the title and the option selector are the first two
    things on the page, and the text blocks shown are none, the
    transcription alone (while summarising, or after a failure), or the
    transcription followed by the bullets of exactly that transcription. *)
Theorem main_page_invariant `{SpeechRecognizer} `{Torch} `{HFPipelines}
    `{Microphone} `{MediaIO} `{TempFiles} (inp : ui_input) (c : config) :
  star (Start inp, []) c -> page_ok c.
Proof.
  intros Hs. assert (Hp0 : page_ok (Start inp, [])) by reflexivity. revert Hp0.
  induction Hs as [|c1 c2 c3 Hs _ IH]; [done|]. intros Hp1. by apply IH, (step_page_ok c1 c2).
Qed.

Lemma main_page_invariant_witness : @page_ok no_cuda empty_loader talk_end.
Proof.
  apply (@main_page_invariant hi_recognizer no_cuda empty_loader silent_mic all_media tmp_files upload_talk).
  run_machine.
Defined.

(** The phase machine implements [main]: from the initial phase and
    an empty page it reaches [Done] with trace [tr] exactly when [main]
    shows [tr] and returns, and [Failed e] exactly when [main] shows [tr]
    and raises [e]. *)
Theorem main_machine_refines `{SpeechRecognizer} `{Torch} `{HFPipelines}
    `{Microphone} `{MediaIO} `{TempFiles} (inp : ui_input) (tr : list event) :
  (star (Start inp, []) (Done, tr) <-> run (main inp) = (tr, Ok tt)) /\
  (forall e, star (Start inp, []) (Failed e, tr) <-> run (main inp) = (tr, Err e)).
Proof.
  assert (Hto : forall c, star (Start inp, []) c -> final (fst c) = true ->
            run (main inp) = (snd c, match fst c with Failed e => Err e | _ => Ok tt end)).
  { intros [ph tr'] Hs Hf. apply star_rest in Hs. simpl in *. unfold run.
    rewrite Hs. by apply final_rest. }
  destruct (reaches_final (Start inp) []) as ([ph tr'] & Hs & Hf).
  pose proof (Hto _ Hs Hf) as Hrun. simpl in Hrun, Hf.
  split; [split|intros e; split].
  - intros Hd. by apply (Hto _ Hd).
  - intros Hm. rewrite Hm in Hrun. destruct ph; try discriminate Hf; congruence.
  - intros Hd. by apply (Hto _ Hd).
  - intros Hm. rewrite Hm in Hrun. destruct ph; try discriminate Hf; congruence.
Qed.

(** C23: Partial output on failure: when a file path is chosen, pydub
    decodes it and exports the normalised audio, the transcription
    succeeds and the summariser raises [e], [main] raises [e] after it has
    read and written the audio, shown the transcription with [st.text] and
    announced the summary; the run ends with the transcription on the page
    and no summary. *)
Theorem main_summary_error_shows_transcript `{SpeechRecognizer} `{Torch}
    `{HFPipelines} `{Microphone} `{MediaIO} `{TempFiles}
    (inp : ui_input) (tr1 : list event) (p : pystr) (segments : list Alignment.segment)
    (info : transcription_info) (e : py_exc) :
  run (main_header ;;; choose_file inp) = (tr1, Ok (Some p)) ->
  p <> [] ->
  audio_from_file p = Ok tt ->
  audio_export (str "normalized_" ++ basename p) = Ok tt ->
  whisper_transcribe whisper_options (str "normalized_" ++ basename p) whisper_beam =
    Ok (Ok segments, info) ->
  summarize_text_loaded (transcribe_audio segments) = Err e ->
  run (main inp) =
    (tr1 ++ [ReadAudio p; WriteAudio (str "normalized_" ++ basename p);
             Write (str "Transcribing audio...");
             Stdout (language_line info);
             Write (nl "### Transcription Before Summarization:");
             Text (transcribe_audio segments);
             Write (nl "Summarizing transcription...")], Err e).
Proof.
  intros Hc Hp Hd Hx Hw Hs. unfold run, main in *.
  rewrite <- (ui_bind_assoc main_header (fun _ => choose_file inp) process_path).
  rewrite ui_bind_unfold, Hc. destruct p as [|c p']; [done|].
  unfold process_path, preprocess_audio, transcription_step, transcribe_audio_file,
    summary_step, ui_bind, emit, ui_ret, ui_lift. cbv beta iota.
  rewrite Hd, Hx. cbv beta iota. rewrite Hw. cbv beta iota. rewrite Hs. simpl.
  by rewrite <- !app_assoc.
Qed.

Lemma main_summary_error_shows_transcript_witness :
  @run _ (@main hi_recognizer no_cuda empty_loader silent_mic all_media tmp_files upload_talk) =
    ([Title (str "Audio/Video Transcription and Summarization");
      Widget (str "Choose an option:"); Widget (str "Upload an audio file");
      SaveFile (str "/tmp/tmpab.mp3") []] ++
     [ReadAudio (str "/tmp/tmpab.mp3"); WriteAudio (str "normalized_" ++ basename (str "/tmp/tmpab.mp3"));
      Write (str "Transcribing audio...");
      Stdout (@language_line (mkInfo (str "en") (9 # 10)));
      Write (nl "### Transcription Before Summarization:");
      Text (transcribe_audio [Alignment.mkSegment 0 1 (str "hi")]);
      Write (nl "Summarizing transcription...")],
     Err (IndexError (str "list index out of range"))).
Proof.
  apply (@main_summary_error_shows_transcript hi_recognizer no_cuda empty_loader silent_mic
           all_media tmp_files upload_talk _ (str "/tmp/tmpab.mp3") [Alignment.mkSegment 0 1 (str "hi")]
           (mkInfo (str "en") (9 # 10))).
  - vm_compute. reflexivity.
  - discriminate.
  - reflexivity.
  - reflexivity.
  - reflexivity.
  - vm_compute. reflexivity.
Defined.

(** C17: A video without an audio track stops the script: [main] saves
    the upload, opens the video, and raises [AttributeError] at line 57,
    with no audio written, nothing transcribed and no text block on the
    page, whatever the slider and the button say. *)
Theorem main_silent_video_raises `{SpeechRecognizer} `{Torch} `{HFPipelines}
    `{Microphone} `{MediaIO} `{TempFiles} (f : uploaded_file) (sfx : pystr) (secs : Z) (pressed : bool) :
  upload_suffix (up_name f) = Ok sfx ->
  video_file_clip (named_temporary_file sfx) = Ok false ->
  run (main (mkInput (str "Upload Video") (Some f) secs pressed)) =
    (header_events ++ [Widget (str "Upload a video file");
                       SaveFile (named_temporary_file sfx) (up_buffer f);
                       ReadAudio (named_temporary_file sfx)],
     Err (AttributeError (str "'NoneType' object has no attribute 'write_audiofile'"))).
Proof.
  intros Hs Hv. unfold run, main. rewrite ui_bind_unfold, main_header_run, app_nil_l.
  unfold choose_file, save_upload, extract_audio_from_video, ui_bind, ui_lift, emit, ui_ret.
  cbn [selected uploaded].
  rewrite bool_decide_false by discriminate. rewrite bool_decide_false by discriminate.
  rewrite bool_decide_true by reflexivity. rewrite Hs, Hv. reflexivity.
Qed.

Lemma main_silent_video_raises_witness :
  @run _ (@main hi_recognizer no_cuda empty_loader silent_mic silent_video_media tmp_files
            (mkInput (str "Upload Video") (Some (mkUpload (str "clip.mp4") [Byte.x01])) 30 false)) =
    (header_events ++ [Widget (str "Upload a video file");
                       SaveFile (str "/tmp/tmpab.mp4") [Byte.x01];
                       ReadAudio (str "/tmp/tmpab.mp4")],
     Err (AttributeError (str "'NoneType' object has no attribute 'write_audiofile'"))).
Proof.
  apply (@main_silent_video_raises hi_recognizer no_cuda empty_loader silent_mic silent_video_media
           tmp_files (mkUpload (str "clip.mp4") [Byte.x01]) (str ".mp4")); vm_compute; reflexivity.
Defined.

End App.
