(* ===== verification/Session.v ===== *)
(** * The working directory shared by the runs of the script

    Streamlit serves every browser session by running [main] again, and
    runs concurrent sessions in threads of one process: all of them share
    the process's working directory.  The files a run reads and writes are
    the [SaveFile], [SaveWav], [ReadAudio] and [WriteAudio] events of its
    trace; the process's state [dir] is the working directory, a finite
    map from paths to contents, with the audio each thread decoded last,
    updated by those events in the order the process performs them.  Two
    sessions' events interleave arbitrarily ([interleave]) between the
    calls of the code: a read (pydub's [from_file], moviepy's
    [VideoFileClip]) and the write that follows it are separate events.

    [main.py] writes two files under fixed names in the working directory:
    [extract_audio_from_video] writes ["extracted_audio.wav"] (line 57) and
    [preprocess_audio] reads it back (line 47) and writes
    ["normalized_extracted_audio.wav"] (line 50).  [until_preprocess] is
    [main] up to that point (lines 157-193), and [main_prefix] shows every
    run of [main] begins with its events. *)

From S2P Require Import Prelude Summarizer Bullets Streamlit Capture Models App.
From stdpp Require Import gmap.

Module Session.
Import Streamlit Capture Models App.
Local Open Scope ui_scope.

(** What a file holds: bytes, a WAV recording, or the audio decoded from
    what another file held when it was read, written back by pydub or
    moviepy. *)
Inductive content :=
  | Raw (data : list Byte.byte)
  | WavFile (nchannels sampwidth framerate : Z) (frames : list Byte.byte)
  | AudioOf (src : option content).

(** The working directory: contents by path. *)
Abbreviation store := (gmap pystr content).

(** The runs in flight are threads of one process, told apart by a number. *)
Abbreviation thread := nat.

(** The process's state: the working directory, and for each thread the
    audio it decoded last (what the file it read held then), which its
    next [WriteAudio] writes. *)
Record dir := mkDir {
  files : store;
  decoded : gmap thread (option content)
}.

(** An event of thread [sid], performed on the state as it is then. *)
Definition apply_event (d : dir) (ev : thread * event) : dir :=
  let '(sid, e) := ev in
  match e with
  | SaveFile name data => mkDir (<[name := Raw data]> (files d)) (decoded d)
  | SaveWav name nch sw rate frames => mkDir (<[name := WavFile nch sw rate frames]> (files d)) (decoded d)
  | ReadAudio src => mkDir (files d) (<[sid := files d !! src]> (decoded d))
  | WriteAudio dst => mkDir (<[dst := AudioOf (default None (decoded d !! sid))]> (files d)) (decoded d)
  | _ => d
  end.

Definition apply_trace (d : dir) (tr : list (thread * event)) : dir := fold_left apply_event tr d.

(** The events of a run, performed by thread [sid]. *)
Definition on_thread (sid : thread) (tr : list event) : list (thread * event) := map (pair sid) tr.

(** [m] is an interleaving of [l] and [r]. *)
Inductive interleave {A} : list A -> list A -> list A -> Prop :=
  | il_nil : interleave [] [] []
  | il_left x l r m : interleave l r m -> interleave (x :: l) r (x :: m)
  | il_right x l r m : interleave l r m -> interleave l (x :: r) (x :: m).

(** The audio file [main] transcribes after a video upload. *)
Definition normalized_extracted : pystr := str "normalized_" ++ basename extracted_audio.

(** A session that uploads the video [f] (the slider keeps its default). *)
Definition video_input (f : uploaded_file) : ui_input :=
  mkInput (str "Upload Video") (Some f) 30 false.

(** The media library of a run decodes the upload [f] saved under its
    temporary name, finds an audio track in it, and writes and reads back
    the two fixed files. *)
Definition decodes_video (t : TempFiles) (m : MediaIO) (f : uploaded_file) : Prop :=
  (forall sfx, upload_suffix (up_name f) = Ok sfx ->
     @video_file_clip m (@named_temporary_file t sfx) = Ok true) /\
  (@write_audiofile m extracted_audio = Ok tt) /\
  (@audio_from_file m extracted_audio = Ok tt) /\
  (@audio_export m normalized_extracted = Ok tt).

Section Prefix.
Context `{SpeechRecognizer} `{Torch} `{HFPipelines} `{Microphone} `{MediaIO} `{TempFiles}.

(** Lines 157-193: [main] up to [preprocess_audio]. *)
Definition until_preprocess (inp : ui_input) : ui (option pystr) :=
  main_header ;;;
  file_path <<- choose_file inp ;;
  match file_path with
  | None | Some [] => ui_ret None
  | Some p => processed_file_path <<- preprocess_audio p ;; ui_ret (Some processed_file_path)
  end.

(** What [main] runs after [until_preprocess]. *)
Definition after_preprocess (processed : option pystr) : ui unit :=
  match processed with
  | None => ui_ret tt
  | Some q => transcription <<- transcription_step q ;; summary_step transcription
  end.

End Prefix.

(** ** Lemmas *)

Section Lemmas.
Context `{SpeechRecognizer} `{Torch} `{HFPipelines} `{Microphone} `{MediaIO} `{TempFiles}.

Lemma main_split inp tr : main inp tr = ui_bind (until_preprocess inp) after_preprocess tr.
Proof.
  unfold main, until_preprocess, process_path, ui_bind. cbv beta iota.
  destruct (main_header tr) as [t1 [[]|e1]]; [|reflexivity].
  destruct (choose_file inp t1) as [t2 [[[|c p]|]|e2]]; try reflexivity.
  by destruct (preprocess_audio (c :: p) t2) as [t3 [q|e3]].
Qed.

Lemma after_preprocess_framed o : framed (after_preprocess o).
Proof.
  destruct o as [q|]; [|apply framed_ret].
  unfold after_preprocess, transcription_step, summary_step, transcribe_audio_file.
  apply framed_bind; [|intros t; auto 20 with ui].
  repeat (apply framed_bind; [|intros]); auto with ui. case_match. auto 20 with ui.
Qed.

(** Every run of [main] begins with the events of [until_preprocess]. *)
Lemma main_prefix inp : exists rest, fst (run (main inp)) = fst (run (until_preprocess inp)) ++ rest.
Proof.
  unfold run. rewrite main_split. unfold ui_bind.
  destruct (until_preprocess inp []) as [t [o|e]]; simpl; [|exists []; by rewrite app_nil_r].
  rewrite (after_preprocess_framed o t). eexists. reflexivity.
Qed.

(** The events of a video session up to the preprocessing, when the
    media library decodes its files. *)
Lemma until_preprocess_video (f : uploaded_file) :
  decodes_video _ _ f ->
  exists tmp, fst (run (until_preprocess (video_input f))) =
    header_events ++ [Widget (str "Upload a video file"); SaveFile tmp (up_buffer f);
                      ReadAudio tmp; WriteAudio extracted_audio;
                      ReadAudio extracted_audio; WriteAudio normalized_extracted].
Proof.
  intros (Hv & Hw & Hr & Hx).
  destruct (upload_suffix_ok (up_name f)) as [sfx Hs].
  exists (named_temporary_file sfx).
  unfold run, until_preprocess, choose_file, video_input, save_upload, extract_audio_from_video,
    preprocess_audio, ui_bind, ui_lift, emit, ui_ret. cbn [selected uploaded].
  rewrite bool_decide_false by discriminate. rewrite bool_decide_false by discriminate.
  rewrite bool_decide_true by reflexivity. rewrite Hs, (Hv sfx Hs), Hw, Hr.
  fold normalized_extracted. rewrite Hx. reflexivity.
Qed.

Lemma apply_trace_app fs t1 t2 : apply_trace fs (t1 ++ t2) = apply_trace (apply_trace fs t1) t2.
Proof. apply fold_left_app. Qed.

Lemma interleave_left {A} (l m : list A) r : interleave l r m -> forall p, interleave (p ++ l) r (p ++ m).
Proof. intros Hi p. induction p; simpl; [done|]. by constructor. Qed.

Lemma interleave_right {A} (l m : list A) r : interleave l r m -> forall p, interleave l (p ++ r) (p ++ m).
Proof. intros Hi p. induction p; simpl; [done|]. by constructor. Qed.

End Lemmas.

(** ** Properties *)

(** C24: Runs share the working directory: for any two sessions that
    upload videos [fA] and [fB] whose media libraries decode them (each
    video has an audio track), run one after the other, the file that
    session B transcribes holds B's audio; but in the interleaving where A
    runs between B's write of ["extracted_audio.wav"] and B's read of it
    back (B's last write coming last), that file holds A's audio, so B
    transcribes A's video. *)
Theorem video_sessions_share_files `{Microphone}
    (tA tB : TempFiles) (mA mB : MediaIO) (fA fB : uploaded_file) (d : dir) :
  decodes_video tA mA fA -> decodes_video tB mB fB ->
  let trA := on_thread 0 (fst (run (@until_preprocess _ mA tA (video_input fA)))) in
  let trB := on_thread 1 (fst (run (@until_preprocess _ mB tB (video_input fB)))) in
  files (apply_trace d (trA ++ trB)) !! normalized_extracted =
    Some (AudioOf (Some (AudioOf (Some (Raw (up_buffer fB)))))) /\
  exists merged, interleave trA trB merged /\ last merged = last trB /\
    files (apply_trace d merged) !! normalized_extracted =
      Some (AudioOf (Some (AudioOf (Some (Raw (up_buffer fA)))))).
Proof.
  intros HdA HdB trA trB.
  destruct (@until_preprocess_video _ mA tA fA HdA) as [xA HA].
  destruct (@until_preprocess_video _ mB tB fB HdB) as [xB HB].
  subst trA trB. rewrite HA, HB. unfold apply_trace, on_thread. split.
  - cbn [fold_left apply_event app map header_events files decoded].
    by rewrite !lookup_insert_eq.
  - eexists (map (pair 1) (header_events ++ [Widget (str "Upload a video file"); SaveFile xB (up_buffer fB);
               ReadAudio xB; WriteAudio extracted_audio]) ++
             map (pair 0) (header_events ++ [Widget (str "Upload a video file"); SaveFile xA (up_buffer fA);
               ReadAudio xA; WriteAudio extracted_audio; ReadAudio extracted_audio;
               WriteAudio normalized_extracted]) ++
             map (pair 1) [ReadAudio extracted_audio; WriteAudio normalized_extracted]).
    split; [|split; [reflexivity|]].
    + cbn [app map header_events].
      do 6 apply il_right. do 8 apply il_left. do 2 apply il_right. apply il_nil.
    + cbn [fold_left apply_event app map header_events files decoded].
      rewrite !lookup_insert_eq, lookup_insert_ne by (unfold normalized_extracted; discriminate).
      by rewrite !lookup_insert_eq.
Qed.

Lemma video_sessions_share_files_witness :
  let up := mkUpload (str "a.mp4") [Byte.x01] in
  let up' := mkUpload (str "b.mp4") [Byte.x02] in
  let d0 := mkDir ∅ ∅ in
  let trA := on_thread 0 (fst (run (@until_preprocess silent_mic all_media tmp_files (video_input up)))) in
  let trB := on_thread 1 (fst (run (@until_preprocess silent_mic all_media tmp_files (video_input up')))) in
  files (apply_trace d0 (trA ++ trB)) !! normalized_extracted =
    Some (AudioOf (Some (AudioOf (Some (Raw (up_buffer up')))))) /\
  exists merged, interleave trA trB merged /\ last merged = last trB /\
    files (apply_trace d0 merged) !! normalized_extracted =
      Some (AudioOf (Some (AudioOf (Some (Raw (up_buffer up)))))).
Proof.
  intros up up' d0.
  apply (@video_sessions_share_files silent_mic tmp_files tmp_files all_media all_media up up' d0);
    repeat split; intros; reflexivity.
Defined.

End Session.
